(** * YtChat agent: the query intent resolver of [server/agent.js]

    A shallow embedding of the rule-based resolver of the chat agent: the
    regular expressions the resolver is built from, the time-expression
    parser [parseTimeString], the extractors [extractTimeRange],
    [extractMinuteOrTimestamp] and [extractTopic], the segment selectors, and
    the routing function [agent] with its collaborators (vector store,
    analyzer, summarizer, scrape trigger) made explicit.

    Conventions of the model.
    - A JavaScript string is a [string]; one [ascii] stands for one UTF-16
      code unit below 256.
    - A JavaScript number is a [Z]: every number the resolver computes is an
      integer built from decimal captures, and the model covers the range in
      which doubles are exact.
    - [undefined] and [null] are [None]. *)

From Stdlib Require Import ZArith NArith String Ascii List Bool Lia.
From Stdlib Require Import DecimalString DecimalFacts DecimalNat.
Import ListNotations.
Open Scope string_scope.
Open Scope Z_scope.

(** ** Characters *)

Module Char.

Definition code (a : ascii) : N := N_of_ascii a.

Definition between (lo hi : N) (a : ascii) : bool :=
  ((lo <=? code a) && (code a <=? hi))%N.

(** [\d] *)
Definition is_digit (a : ascii) : bool := between 48 57 a.

(** [\s], on code units below 256: TAB, LF, VT, FF, CR, SP and NBSP. *)
Definition is_space (a : ascii) : bool :=
  (between 9 13 a || (code a =? 32) || (code a =? 160))%N.

(** [\w] *)
Definition is_word (a : ascii) : bool :=
  (between 97 122 a || between 65 90 a || is_digit a || (code a =? 95))%N.

Definition is_upper (a : ascii) : bool := between 65 90 a.
Definition is_lower (a : ascii) : bool := between 97 122 a.

(** Upper-case Latin-1 letters: A-Z, and U+00C0..U+00DE without U+00D7. *)
Definition is_upper_latin1 (a : ascii) : bool :=
  (is_upper a || (between 192 222 a && negb (code a =? 215)))%N.

(** [String.prototype.toLowerCase] on one code unit. *)
Definition to_lower (a : ascii) : ascii :=
  if is_upper_latin1 a then ascii_of_N (code a + 32) else a.

(** The canonical form the [i] flag compares, on the ASCII letters; code
    units from 128 on never canonicalise to an ASCII letter. *)
Definition canon (a : ascii) : ascii :=
  if is_lower a then ascii_of_N (code a - 32) else a.

Definition eqb_flag (ci : bool) (a b : ascii) : bool :=
  if ci then Ascii.eqb (canon a) (canon b) else Ascii.eqb a b.

Definition digit_val (a : ascii) : Z := Z.of_N (code a) - 48.

End Char.

(** ** Strings *)

Fixpoint toLowerCase (s : string) : string :=
  match s with
  | EmptyString => EmptyString
  | String a s' => String (Char.to_lower a) (toLowerCase s')
  end.

Fixpoint trimStart (s : string) : string :=
  match s with
  | String a s' => if Char.is_space a then trimStart s' else s
  | EmptyString => EmptyString
  end.

Fixpoint trimEnd (s : string) : string :=
  match s with
  | EmptyString => EmptyString
  | String a s' =>
      match trimEnd s' with
      | EmptyString => if Char.is_space a then EmptyString else String a EmptyString
      | t => String a t
      end
  end.

(** [String.prototype.trim] *)
Definition trim (s : string) : string := trimEnd (trimStart s).

(** [String.prototype.startsWith] *)
Definition startsWith (s p : string) : bool := String.prefix p s.

Fixpoint digits_value (acc : Z) (s : string) : Z :=
  match s with
  | String a s' =>
      if Char.is_digit a then digits_value (acc * 10 + Char.digit_val a) s' else acc
  | EmptyString => acc
  end.

(** [parseInt(s, 10)] on a capture of [\d+] or [\d{2}]: the value of the
    leading run of decimal digits.  Every call site of the resolver passes
    such a capture, which is a non-empty digit string, so the [NaN] result of
    [parseInt] on a string without a leading digit is never produced. *)
Definition parseInt (s : string) : Z := digits_value 0 s.

(** ** Regular expressions

    The fragment of ECMAScript regular expressions that [agent.js] uses:
    literals, character classes, concatenation, prioritised alternation,
    greedy quantifiers and capture groups, matched by backtracking. *)

Module Regex.

Inductive regex : Type :=
| Eps
| Chr (a : ascii)
| Cls (p : ascii -> bool)
| Cat (r1 r2 : regex)
| Alt (r1 r2 : regex)
| Star (r : regex)
| Grp (i : nat) (r : regex).

Declare Scope regex_scope.
Delimit Scope regex_scope with re.
Bind Scope regex_scope with regex.
Infix "+++" := Cat (at level 60, right associativity) : regex_scope.
Infix "<|>" := Alt (at level 70, right associativity) : regex_scope.

(** [r+], [r?], [r{2}] and a literal run of characters. *)
Definition Plus (r : regex) : regex := Cat r (Star r).
Definition Opt (r : regex) : regex := Alt r Eps.
Definition Twice (r : regex) : regex := Cat r r.

Fixpoint Lit (s : string) : regex :=
  match s with
  | EmptyString => Eps
  | String a s' => Cat (Chr a) (Lit s')
  end.

(** The array a match returns: index 0 is the matched text, index [i] the
    text of group [i], [None] for a group that took no part. *)
Definition captures := list (option string).

Fixpoint set_cap (i : nat) (v : string) (c : captures) : captures :=
  match i, c with
  | O, [] => [Some v]
  | O, _ :: c' => Some v :: c'
  | S i', [] => None :: set_cap i' v []
  | S i', x :: c' => x :: set_cap i' v c'
  end.

Definition cap (c : captures) (i : nat) : option string := nth i c None.

(** The text consumed between the suffix [s] and its suffix [s1]. *)
Definition consumed (s s1 : string) : string :=
  substring 0 (String.length s - String.length s1) s.

Definition cont := string -> captures -> option captures.

Definition orelse (x y : option captures) : option captures :=
  match x with Some _ => x | None => y end.

(** The iterations of a greedy [r*]: one more iteration of [step] first, then
    the continuation.  An iteration that consumes nothing is rejected, as
    RepeatMatcher does, so [String.length s] iterations are enough. *)
Fixpoint star_loop (step : string -> captures -> cont -> option captures)
  (k : cont) (fuel : nat) (s : string) (c : captures) {struct fuel}
  : option captures :=
  match fuel with
  | O => k s c
  | S fuel' =>
      orelse
        (step s c
           (fun s1 c1 =>
              if (String.length s1 <? String.length s)%nat
              then star_loop step k fuel' s1 c1 else None))
        (k s c)
  end.

(** Backtracking matcher in continuation-passing style.  [run ci r s c k]
    matches [r] at the head of [s] and hands the rest of the input to [k];
    alternatives are tried in priority order. *)
Fixpoint run (ci : bool) (r : regex) (s : string) (c : captures) (k : cont)
  {struct r} : option captures :=
  match r with
  | Eps => k s c
  | Chr a =>
      match s with
      | String b s' => if Char.eqb_flag ci a b then k s' c else None
      | EmptyString => None
      end
  | Cls p =>
      match s with
      | String b s' => if p b then k s' c else None
      | EmptyString => None
      end
  | Cat r1 r2 => run ci r1 s c (fun s1 c1 => run ci r2 s1 c1 k)
  | Alt r1 r2 => orelse (run ci r1 s c k) (run ci r2 s c k)
  | Star r1 => star_loop (run ci r1) k (String.length s) s c
  | Grp i r1 =>
      run ci r1 s c (fun s1 c1 => k s1 (set_cap i (consumed s s1) c1))
  end.

(** A match anchored at the head of [s]. *)
Definition match_here (ci : bool) (r : regex) (s : string) : option captures :=
  run ci r s [] (fun s1 c1 => Some (set_cap 0 (consumed s s1) c1)).

(** [str.match(re)] for a regular expression without the [g] flag: the
    leftmost match.  [ci] is the [i] flag. *)
Fixpoint exec (ci : bool) (r : regex) (s : string) : option captures :=
  match match_here ci r s with
  | Some m => Some m
  | None =>
      match s with
      | EmptyString => None
      | String _ s' => exec ci r s'
      end
  end.

(** [re.test(str)] *)
Definition test (ci : bool) (r : regex) (s : string) : bool :=
  match exec ci r s with Some _ => true | None => false end.

End Regex.

Import Regex.

(** ** The patterns of [agent.js] *)

Module Pat.

Definition DQUOTE : ascii := ascii_of_N 34.
Definition LF : ascii := ascii_of_N 10.

(** [\d], [\s], [\w] and [[^\s]] *)
Definition d : regex := Cls Char.is_digit.
Definition ws : regex := Cls Char.is_space.
Definition nonspace : regex := Cls (fun a => negb (Char.is_space a)).
Definition word_or_space : regex :=
  Cls (fun a => Char.is_word a || Char.is_space a).

(** [[^\s]+(?: [^\s]+)*], the body of every phrase group, below [W]: runs
    of non-space characters separated by single spaces. *)
Definition words : regex := (Plus nonspace +++ Star (Chr " " +++ Plus nonspace))%re.

(** [(minute|hour|second)] and [(hour|minute|second)], without the group. *)
Definition unit_mhs : regex := (Lit "minute" <|> Lit "hour" <|> Lit "second")%re.
Definition unit_hms : regex := (Lit "hour" <|> Lit "minute" <|> Lit "second")%re.

(** [/(https?:\/\/(?:www\.|m\.)?(?:youtube\.com\/watch\?v=|youtu\.be\/|youtube\.com\/embed\/)[^\s]+)/] *)
Definition youtubeUrl : regex :=
  Grp 1 (Lit "http" +++ Opt (Chr "s") +++ Lit "://"
         +++ Opt (Lit "www." <|> Lit "m.")
         +++ (Lit "youtube.com/watch?v=" <|> Lit "youtu.be/" <|> Lit "youtube.com/embed/")
         +++ Plus nonspace)%re.

(** [/(?:youtube\.com\/watch\?v=|youtu\.be\/|youtube\.com\/embed\/)([^&\n?#]+)/] *)
Definition videoId : regex :=
  ((Lit "youtube.com/watch?v=" <|> Lit "youtu.be/" <|> Lit "youtube.com/embed/")
   +++ Grp 1 (Plus (Cls (fun a =>
         negb (Ascii.eqb a "&" || Ascii.eqb a LF || Ascii.eqb a "?" || Ascii.eqb a "#")))))%re.

(** [/(\d+)(?:st|nd|rd|th)? minute/] *)
Definition nthMinute : regex :=
  (Grp 1 (Plus d) +++ Opt (Lit "st" <|> Lit "nd" <|> Lit "rd" <|> Lit "th")
   +++ Lit " minute")%re.

(** [/at (\d+):(\d{2})/] *)
Definition atTime : regex :=
  (Lit "at " +++ Grp 1 (Plus d) +++ Chr ":" +++ Grp 2 (Twice d))%re.

(** [/last minute/] *)
Definition lastMinute : regex := Lit "last minute".

(** [/about ([\w\s]+)/i], [/topic ([\w\s]+)/i], and a non-empty run of
    characters other than the double quote between two double quotes. *)
Definition aboutTopic : regex := (Lit "about " +++ Grp 1 (Plus word_or_space))%re.
Definition topicTopic : regex := (Lit "topic " +++ Grp 1 (Plus word_or_space))%re.
Definition quoted : regex :=
  (Chr DQUOTE +++ Grp 1 (Plus (Cls (fun a => negb (Ascii.eqb a DQUOTE)))) +++ Chr DQUOTE)%re.

(** [/sentiment|emotion|feeling|tone/i] *)
Definition sentiment : regex :=
  (Lit "sentiment" <|> Lit "emotion" <|> Lit "feeling" <|> Lit "tone")%re.

(** [/channel|views|likes|date|published|duration|length/i] *)
Definition metadata : regex :=
  (Lit "channel" <|> Lit "views" <|> Lit "likes" <|> Lit "date"
   <|> Lit "published" <|> Lit "duration" <|> Lit "length")%re.

(** [/first (\d+) (minute|hour|second)s?/] and its siblings *)
Definition firstN : regex :=
  (Lit "first " +++ Grp 1 (Plus d) +++ Chr " " +++ Grp 2 unit_mhs +++ Opt (Chr "s"))%re.
Definition lastN : regex :=
  (Lit "last " +++ Grp 1 (Plus d) +++ Chr " " +++ Grp 2 unit_mhs +++ Opt (Chr "s"))%re.
Definition afterN : regex :=
  (Lit "after " +++ Grp 1 (Plus d) +++ Chr " " +++ Grp 2 unit_hms +++ Opt (Chr "s"))%re.
Definition beforeN : regex :=
  (Lit "before " +++ Grp 1 (Plus d) +++ Chr " " +++ Grp 2 unit_hms +++ Opt (Chr "s"))%re.

(** [/(\d+)\s*(?:h|hour)/i], [/(\d+)\s*(?:m|min)/i], [/(\d+)\s*(?:s|sec)/i] *)
Definition hours : regex := (Grp 1 (Plus d) +++ Star ws +++ (Lit "h" <|> Lit "hour"))%re.
Definition minutes : regex := (Grp 1 (Plus d) +++ Star ws +++ (Lit "m" <|> Lit "min"))%re.
Definition seconds : regex := (Grp 1 (Plus d) +++ Star ws +++ (Lit "s" <|> Lit "sec"))%re.

(** [/(\d+):(\d{2})(?::(\d{2}))?/] *)
Definition colon : regex :=
  (Grp 1 (Plus d) +++ Chr ":" +++ Grp 2 (Twice d) +++ Opt (Chr ":" +++ Grp 3 (Twice d)))%re.

(** [/half an hour/], [/quarter/], [/midway|middle/] *)
Definition halfAnHour : regex := Lit "half an hour".
Definition quarter : regex := Lit "quarter".
Definition midway : regex := (Lit "midway" <|> Lit "middle")%re.

(** [/from (W) to (W)/i] and [/between (W) and (W)/i] *)
Definition fromTo : regex := (Lit "from " +++ Grp 1 words +++ Lit " to " +++ Grp 2 words)%re.
Definition betweenAnd : regex :=
  (Lit "between " +++ Grp 1 words +++ Lit " and " +++ Grp 2 words)%re.
(** [/minutes? (\d+) to (\d+)/i] *)
Definition minutesTo : regex :=
  (Lit "minute" +++ Opt (Chr "s") +++ Chr " " +++ Grp 1 (Plus d) +++ Lit " to "
   +++ Grp 2 (Plus d))%re.

(** [/after (W)/], [/before (W)/], [/around (W)/i] and [/about (W)/i] *)
Definition afterX : regex := (Lit "after " +++ Grp 1 words)%re.
Definition beforeX : regex := (Lit "before " +++ Grp 1 words)%re.
Definition aroundX : regex := (Lit "around " +++ Grp 1 words)%re.
Definition aboutX : regex := (Lit "about " +++ Grp 1 words)%re.

End Pat.

(** ** Extractors and the time-expression parser *)

(** [m[i]] for a group that took part in the match. *)
Definition group (m : captures) (i : nat) : string :=
  match cap m i with Some g => g | None => EmptyString end.

(** Truthiness of [m[i]]: a defined, non-empty string. *)
Definition truthy_group (m : captures) (i : nat) : bool :=
  match cap m i with
  | Some (String _ _) => true
  | _ => false
  end.

Definition extractYoutubeUrl (text : string) : option string :=
  match exec false Pat.youtubeUrl text with
  | Some m => cap m 1
  | None => None
  end.

Definition getVideoIdFromUrl (url : string) : option string :=
  match exec false Pat.videoId url with
  | Some m => cap m 1
  | None => None
  end.

(** The three shapes [extractMinuteOrTimestamp] returns. *)
Record TimeRef : Type := {
  minute : option Z;
  seconds : option Z;
  lastMinute : option bool
}.

Definition RefMinute (n : Z) : TimeRef :=
  {| minute := Some n; seconds := None; lastMinute := None |}.
Definition RefSeconds (n : Z) : TimeRef :=
  {| minute := None; seconds := Some n; lastMinute := None |}.
Definition RefLastMinute : TimeRef :=
  {| minute := None; seconds := None; lastMinute := Some true |}.

Definition extractMinuteOrTimestamp (text : string) : option TimeRef :=
  match exec false Pat.nthMinute text with
  | Some minuteMatch => Some (RefMinute (parseInt (group minuteMatch 1)))
  | None =>
      match exec false Pat.atTime text with
      | Some timeMatch =>
          Some (RefSeconds (parseInt (group timeMatch 1) * 60 + parseInt (group timeMatch 2)))
      | None =>
          if test false Pat.lastMinute text then Some RefLastMinute else None
      end
  end.

Definition extractTopic (text : string) : option string :=
  match exec true Pat.aboutTopic text with
  | Some aboutMatch => Some (trim (group aboutMatch 1))
  | None =>
      match exec true Pat.topicTopic text with
      | Some topicMatch => Some (trim (group topicMatch 1))
      | None =>
          match exec false Pat.quoted text with
          | Some quoteMatch => Some (trim (group quoteMatch 1))
          | None => None
          end
      end
  end.

Definition isSentimentRequest (text : string) : bool := test true Pat.sentiment text.

Definition isMetadataRequest (text : string) : bool := test true Pat.metadata text.

(** The three [if (m[2].startsWith(..)) return ..;] lines that follow a
    match of a unit pattern, in the order hour, minute, second; [None] when
    none of them returns. *)
Definition by_unit (unit : string) (hour minute second : Z) : option Z :=
  if startsWith unit "hour" then Some hour
  else if startsWith unit "minute" then Some minute
  else if startsWith unit "second" then Some second
  else None.

(** A block that may [return]: [Some v] returns [v], [None] goes on. *)
Definition or_continue (block : option Z) (rest : Z) : Z :=
  match block with Some v => v | None => rest end.

Definition DEFAULT_DURATION : Z := 10800.

Definition parseTimeString (str0 : string) (videoDurationSec : Z) : Z :=
  let str := toLowerCase str0 in
  match exec false Pat.nthMinute str with
  | Some nthMinute => parseInt (group nthMinute 1) * 60
  | None =>
  or_continue
    match exec false Pat.firstN str with
    | Some firstMatch => by_unit (group firstMatch 2) 0 0 0
    | None => None
    end (
  or_continue
    match exec false Pat.lastN str with
    | Some lastMatch =>
        let val := parseInt (group lastMatch 1) in
        by_unit (group lastMatch 2)
          (videoDurationSec - val * 3600) (videoDurationSec - val * 60)
          (videoDurationSec - val)
    | None => None
    end (
  or_continue
    match exec false Pat.afterN str with
    | Some afterMatch =>
        let val := parseInt (group afterMatch 1) in
        by_unit (group afterMatch 2) (val * 3600) (val * 60) val
    | None => None
    end (
  or_continue
    match exec false Pat.beforeN str with
    | Some beforeMatch =>
        let val := parseInt (group beforeMatch 1) in
        by_unit (group beforeMatch 2) (val * 3600) (val * 60) val
    | None => None
    end (
  let h := match exec true Pat.hours str with
           | Some hMatch => parseInt (group hMatch 1) | None => 0 end in
  let m := match exec true Pat.minutes str with
           | Some mMatch => parseInt (group mMatch 1) | None => 0 end in
  let s := match exec true Pat.seconds str with
           | Some sMatch => parseInt (group sMatch 1) | None => 0 end in
  let '(h, m, s) :=
    match exec false Pat.colon str with
    | Some colonMatch =>
        (parseInt (group colonMatch 1), parseInt (group colonMatch 2),
         if truthy_group colonMatch 3 then parseInt (group colonMatch 3) else s)
    | None => (h, m, s)
    end in
  if test false Pat.halfAnHour str then 30 * 60
  else if test false Pat.quarter str then 15 * 60
  else if test false Pat.midway str then videoDurationSec / 2
  else h * 3600 + m * 60 + s))))
  end.

Record Range : Type := { start : Z; end_ : Z }.

(** [a || b || c] on match results. *)
Definition first_match (a b c : option captures) : option captures :=
  match a with
  | Some _ => a
  | None => match b with Some _ => b | None => c end
  end.

Definition extractTimeRange (text : string) (videoDurationSec : Z) : option Range :=
  match first_match (exec true Pat.fromTo text) (exec true Pat.betweenAnd text)
          (exec true Pat.minutesTo text) with
  | Some rangeMatch =>
      (* [!isNaN(start) && !isNaN(end)] holds of every number of the model *)
      if truthy_group rangeMatch 3 && truthy_group rangeMatch 4
      then Some {| start := parseInt (group rangeMatch 3) * 60;
                   end_ := parseInt (group rangeMatch 4) * 60 |}
      else Some {| start := parseTimeString (group rangeMatch 1) videoDurationSec;
                   end_ := parseTimeString (group rangeMatch 2) videoDurationSec |}
  | None =>
  match exec false Pat.firstN text with
  | Some firstMatch =>
      let e := 0 in
      let e := if startsWith (group firstMatch 2) "hour"
               then parseInt (group firstMatch 1) * 3600 else e in
      let e := if startsWith (group firstMatch 2) "minute"
               then parseInt (group firstMatch 1) * 60 else e in
      let e := if startsWith (group firstMatch 2) "second"
               then parseInt (group firstMatch 1) else e in
      Some {| start := 0; end_ := e |}
  | None =>
  match exec false Pat.lastN text with
  | Some lastMatch =>
      let st := videoDurationSec in
      let st := if startsWith (group lastMatch 2) "hour"
                then st - parseInt (group lastMatch 1) * 3600 else st in
      let st := if startsWith (group lastMatch 2) "minute"
                then st - parseInt (group lastMatch 1) * 60 else st in
      let st := if startsWith (group lastMatch 2) "second"
                then st - parseInt (group lastMatch 1) else st in
      Some {| start := st; end_ := videoDurationSec |}
  | None =>
  match exec false Pat.afterX text with
  | Some afterMatch =>
      Some {| start := parseTimeString (group afterMatch 1) videoDurationSec;
              end_ := videoDurationSec |}
  | None =>
  match exec false Pat.beforeX text with
  | Some beforeMatch =>
      Some {| start := 0;
              end_ := parseTimeString (group beforeMatch 1) videoDurationSec |}
  | None =>
  match first_match (exec true Pat.aroundX text) (exec true Pat.aboutX text)
          (exec false Pat.midway text) with
  | Some aroundMatch =>
      let center :=
        parseTimeString
          (if truthy_group aroundMatch 1 then group aroundMatch 1 else "midway")
          videoDurationSec in
      Some {| start := Z.max 0 (center - 60); end_ := center + 60 |}
  | None => None
  end end end end end
  end.

(** ** Transcript chunks *)

(** The values a metadata field holds. *)
Inductive jsval : Type :=
| JNum (n : Z)
| JStr (s : string)
| JOther.

(** A metadata object, by its own keys in insertion order. *)
Definition object := list (string * jsval).

Fixpoint field (o : object) (key : string) : option jsval :=
  match o with
  | [] => None
  | (k, v) :: o' => if String.eqb k key then Some v else field o' key
  end.

Record Document : Type := { pageContent : string; metadata : option object }.

(** An array element: a chunk, or [undefined]. *)
Definition element := option Document.

(** [Array.prototype.slice(from, to)] *)
Definition slice {A : Type} (l : list A) (from to : Z) : list A :=
  let len := Z.of_nat (List.length l) in
  let k := if from <? 0 then Z.max (len + from) 0 else Z.min from len in
  let final := if to <? 0 then Z.max (len + to) 0 else Z.min to len in
  firstn (Z.to_nat (final - k)) (skipn (Z.to_nat k) l).

(** [arr[i]] *)
Definition at_index {A : Type} (l : list A) (i : Z) : option A :=
  if i <? 0 then None else nth_error l (Z.to_nat i).

(** [Math.ceil(n / 10)] for a length [n]. *)
Definition ceil_div10 (n : Z) : Z := (n + 9) / 10.

(** ** Segment selectors *)

Definition getTranscriptSegmentByMinute (docs : list Document) (minute : Z)
  : list element :=
  match docs with
  | [] => []
  | _ =>
      let approxChunkPerMinute := ceil_div10 (Z.of_nat (List.length docs)) in
      let startIdx := (minute - 1) * approxChunkPerMinute in
      map Some (slice docs startIdx (startIdx + approxChunkPerMinute))
  end.

(** [d.metadata && d.metadata.start <= seconds && d.metadata.end > seconds],
    for timing fields that are numbers when present. *)
Definition covers (seconds : Z) (d : Document) : bool :=
  match metadata d with
  | Some md =>
      match field md "start", field md "end" with
      | Some (JNum st), Some (JNum en) => (st <=? seconds) && (seconds <? en)
      | _, _ => false
      end
  | None => false
  end.

(** The index is [Math.floor((seconds / (10 * 60)) * docs.length)], taken
    here on exact quotients. *)
Definition getTranscriptSegmentBySeconds (docs : list Document) (seconds : Z)
  : list element :=
  match docs with
  | [] => []
  | _ =>
      match find (covers seconds) docs with
      | Some found => [Some found]
      | None =>
          let idx := seconds * Z.of_nat (List.length docs) / (10 * 60) in
          [at_index docs idx]
      end
  end.

Definition getTranscriptSegmentLastMinute (docs : list Document) : list element :=
  match docs with
  | [] => []
  | _ =>
      let approxChunkPerMinute := ceil_div10 (Z.of_nat (List.length docs)) in
      let len := Z.of_nat (List.length docs) in
      map Some (slice docs (- approxChunkPerMinute) len)
  end.

(** ** Collaborators and effects *)

Inductive error : Type :=
| ReferenceError (identifier : string)
| TypeError (message : string)
| Failure (message : string).

Inductive result (A : Type) : Type :=
| Ok (a : A)
| Throw (e : error).
Arguments Ok {A} a.
Arguments Throw {A} e.

Inductive llm : Type := SummarizerLLM | AnalyzerLLM.

(** What [analyzeTranscriptSegment] returns and the object literals
    [{ answer: .. }] of the sentiment and metadata branches. *)
Inductive analysis : Type :=
| Parsed (json : string)
| PlainAnswer (answer : string)
| AnswerOnly (answer : string).

(** The template literals the agent sends, by their holes. *)
Inductive prompt : Type :=
| AnalyzePrompt (userQuery transcriptText : string)
| SummarizePrompt (userQuery : string) (analyzerResult : analysis)
| SentimentPrompt (transcriptText : string)
| MetadataPrompt (md : object) (input : string)
| Raw (input : string).

Inductive event : Type :=
| Search (query : string) (k : Z) (video_id : option string)
| Invoke (model : llm) (p : prompt)
| Scrape (url : string)
| ConsoleError (label : string) (e : error).

Definition trace := list event.

(** Computations that log the calls they make and may throw. *)
Definition M (A : Type) : Type := trace -> trace * result A.

Definition ret {A : Type} (a : A) : M A := fun t => (t, Ok a).

Definition throw {A : Type} (e : error) : M A := fun t => (t, Throw e).

Definition bind {A B : Type} (m : M A) (f : A -> M B) : M B :=
  fun t =>
    match m t with
    | (t', Ok a) => f a t'
    | (t', Throw e) => (t', Throw e)
    end.

(** [try { m } catch (err) { handler(err) }] *)
Definition try_catch {A : Type} (m : M A) (handler : error -> M A) : M A :=
  fun t =>
    match m t with
    | (t', Ok a) => (t', Ok a)
    | (t', Throw e) => handler e t'
    end.

(** A call to a collaborator: logged, then its answer. *)
Definition call {A : Type} (ev : event) (answer : result A) : M A :=
  fun t => ((t ++ [ev])%list, answer).

Definition console_error (label : string) (e : error) : M unit :=
  fun t => ((t ++ [ConsoleError label e])%list, Ok tt).

Notation "x <- m ;; f" := (bind m (fun x => f))
  (at level 61, m at next level, right associativity).

(** A run from the empty log. *)
Definition outcome {A : Type} (m : M A) : trace * result A := m [].

(** The collaborators of the agent: the vector store, the model clients,
    [JSON.parse] and the scrape trigger. *)
Record collaborators : Type := {
  similaritySearch : string -> Z -> option string -> result (list Document);
  invoke : llm -> prompt -> result string;
  JSON_parse : string -> option string;
  triggerYoutubeVideoScrape : string -> result unit
}.

(** ** The agent *)

(** Truthiness of a property that holds a number, a flag, or nothing. *)
Definition truthy_number (v : option Z) : bool :=
  match v with Some n => negb (n =? 0) | None => false end.

Definition truthy_flag (v : option bool) : bool :=
  match v with Some b => b | None => false end.

Definition number_of (v : option Z) : Z :=
  match v with Some n => n | None => 0 end.

(** [segment.length] as a condition. *)
Definition nonempty {A : Type} (l : list A) : bool :=
  match l with [] => false | _ :: _ => true end.

Definition join_lines (l : list string) : string :=
  String.concat (String Pat.LF EmptyString) l.

(** [docs.map((d) => d.pageContent)]: reading [pageContent] of [undefined]
    throws. *)
Fixpoint pageContents (docs : list element) : result (list string) :=
  match docs with
  | [] => Ok []
  | None :: _ => Throw (TypeError "Cannot read properties of undefined (reading 'pageContent')")
  | Some d :: docs' =>
      match pageContents docs' with
      | Ok l => Ok (pageContent d :: l)
      | Throw e => Throw e
      end
  end.

(** [metadata.duration], when truthy, replaces the default duration: a number
    as it is, a string through [parseTimeString] with its default argument. *)
Definition duration_of (md : object) (fallback : Z) : Z :=
  match field md "duration" with
  | Some (JNum n) => if n =? 0 then fallback else n
  | Some (JStr str) =>
      match str with
      | EmptyString => fallback
      | _ => parseTimeString str DEFAULT_DURATION
      end
  | _ => fallback
  end.

(** [metadata] and [videoDurationSec] after a retrieval: those of the first
    chunk when it carries metadata, else the empty object and the default. *)
Definition video_context (docs : list Document) : object * Z :=
  match docs with
  | {| metadata := Some md |} :: _ => (md, duration_of md DEFAULT_DURATION)
  | _ => ([], DEFAULT_DURATION)
  end.

Definition SCRAPING : string :=
  "The video is being scraped. Please wait about 10 seconds and ask again.".
Definition SCRAPE_FAILED : string := "Failed to trigger scraping for this video.".
Definition NO_METADATA : string := "Sorry, video metadata is not available.".

Section Agent.

Variable C : collaborators.

(** What the identifier [getTranscriptSegmentsByTimeRange] is bound to in the
    scope of the module, if anything. *)
Variable timeRangeSelector : option (list Document -> Z -> Z -> list element).

Definition llm_invoke (model : llm) (p : prompt) : M string :=
  call (Invoke model p) (invoke C model p).

Definition vector_search (query : string) (k : Z) (video_id : option string)
  : M (list Document) :=
  call (Search query k video_id) (similaritySearch C query k video_id).

Definition analyzeTranscriptSegment (docs : list element) (userQuery : string)
  : M analysis :=
  match pageContents docs with
  | Throw e => throw e
  | Ok contents =>
      response <- llm_invoke AnalyzerLLM (AnalyzePrompt userQuery (join_lines contents)) ;;
      ret (match JSON_parse C response with
           | Some json => Parsed json
           | None => PlainAnswer response
           end)
  end.

Definition summarizeAnalyzerResult (analyzerResult : analysis) (userQuery : string)
  : M string :=
  llm_invoke SummarizerLLM (SummarizePrompt userQuery analyzerResult).

(** The two awaited lines every analysis branch ends with. *)
Definition answer_from (segment : list element) (input : string) : M string :=
  analysis <- analyzeTranscriptSegment segment input ;;
  summarizeAnalyzerResult analysis input.

Section WithDocs.

Variables (input : string) (videoId : option string) (docs : list Document)
  (metadata : object) (videoDurationSec : Z).

(** 0. Time range query *)
Definition time_range_query (rest : M string) : M string :=
  match extractTimeRange input videoDurationSec with
  | Some timeRange =>
      segment <-
        match timeRangeSelector with
        | Some select => ret (select docs (start timeRange) (end_ timeRange))
        | None => throw (ReferenceError "getTranscriptSegmentsByTimeRange")
        end ;;
      if nonempty segment then answer_from segment input else rest
  | None => rest
  end.

(** The [if / else if] chain on the fields of [timeRef]. *)
Definition timestamp_segment (timeRef : TimeRef) : list element :=
  if truthy_number (minute timeRef)
  then getTranscriptSegmentByMinute docs (number_of (minute timeRef))
  else if truthy_number (seconds timeRef)
  then getTranscriptSegmentBySeconds docs (number_of (seconds timeRef))
  else if truthy_flag (lastMinute timeRef)
  then getTranscriptSegmentLastMinute docs
  else [].

(** 1. Time-based query *)
Definition timestamp_query (rest : M string) : M string :=
  match extractMinuteOrTimestamp input with
  | Some timeRef =>
      let segment := timestamp_segment timeRef in
      if nonempty segment then answer_from segment input else rest
  | None => rest
  end.

(** 2. Topic-based query *)
Definition topic_query (rest : M string) : M string :=
  match extractTopic input with
  | Some (String _ _ as topic) =>
      topicDocs <- vector_search topic 4 videoId ;;
      if nonempty topicDocs then answer_from (map Some topicDocs) input else rest
  | _ => rest
  end.

(** 3. Sentiment analysis *)
Definition sentiment_query (rest : M string) : M string :=
  if isSentimentRequest input
  then
    let transcriptText := join_lines (map pageContent docs) in
    analysis <- llm_invoke AnalyzerLLM (SentimentPrompt transcriptText) ;;
    summarizeAnalyzerResult (AnswerOnly analysis) input
  else rest.

(** 4. Metadata request *)
Definition metadata_query (rest : M string) : M string :=
  if isMetadataRequest input
  then
    if nonempty metadata
    then
      analysis <- llm_invoke AnalyzerLLM (MetadataPrompt metadata input) ;;
      summarizeAnalyzerResult (AnswerOnly analysis) input
    else ret NO_METADATA
  else rest.

(** 5. Otherwise, summarize the whole video *)
Definition whole_video : M string := answer_from (map Some docs) input.

(** The block guarded by [docs.length > 0]. *)
Definition with_docs : M string :=
  time_range_query
    (timestamp_query
       (topic_query
          (sentiment_query
             (metadata_query whole_video)))).

End WithDocs.

(** The [try] block that fills [docs], [metadata] and [videoDurationSec]. *)
Definition retrieve (videoId : string) : M (list Document * object * Z) :=
  try_catch
    (docs <- vector_search "" 40 (Some videoId) ;;
     ret (docs, fst (video_context docs), snd (video_context docs)))
    (fun err =>
       _ <- console_error "Vector store retrieval error:" err ;;
       ret ([], [], DEFAULT_DURATION)).

(** No transcript yet: trigger the scrape. *)
Definition trigger_scrape (youtubeUrl : string) : M string :=
  try_catch
    (_ <- call (Scrape youtubeUrl) (triggerYoutubeVideoScrape C youtubeUrl) ;;
     ret SCRAPING)
    (fun err =>
       _ <- console_error "Failed to trigger scrape:" err ;;
       ret SCRAPE_FAILED).

Definition agent_in_scope (input : string) : M string :=
  match extractYoutubeUrl input with
  | Some youtubeUrl =>
      let videoId := getVideoIdFromUrl youtubeUrl in
      state <-
        match videoId with
        | Some (String _ _ as id) => retrieve id
        | _ => ret ([], [], DEFAULT_DURATION)
        end ;;
      let '(docs, metadata, videoDurationSec) := state in
      if nonempty docs
      then with_docs input videoId docs metadata videoDurationSec
      else trigger_scrape youtubeUrl
  | None => llm_invoke SummarizerLLM (Raw input)
  end.

End Agent.

(** [agent.js] neither declares nor imports [getTranscriptSegmentsByTimeRange]:
    in the scope of the module the identifier is unbound. *)
Definition agent (C : collaborators) (input : string) : M string :=
  agent_in_scope C None input.

(** ** Ingestion of a video ([embeddings.js]) *)

(** An element of a formatted transcript: an object whose [text] is a
    string, any other value whose [text] is not a string, or [null] or
    [undefined], on which reading [text] throws. *)
Inductive segment : Type :=
| SegText (text : string)
| SegOther
| SegNullish.

(** The values of [formatted_transcript]: a JSON-encoded string, an array,
    or another value that is not an array. *)
Inductive formatted : Type :=
| FString (raw : string)
| FArray (segments : list segment)
| FOther.

(** The fields of the video data the ingestion reads; [transcript] and
    [description] are [None] when they are not strings. *)
Record videoData : Type := {
  transcript : option string;
  video_id : jsval;
  formatted_transcript : option formatted;
  description : option string
}.

(** The calls the ingestion makes, as it logs them: the warnings of
    [console.warn], the splitter, the store and the row count of the debug
    client.  The lines of [console.log] and [console.debug] are not
    recorded. *)
Inductive ingest_event : Type :=
| Warn (message : string)
| Split (docs : list Document)
| AddDocuments (chunks : list Document)
| RowCount.

(** [JSON.parse] ([None] when it throws), the text splitter, the vector
    store and the debug client. *)
Record ingest_collaborators : Type := {
  parse_json : string -> option formatted;
  splitDocuments : list Document -> result (list Document);
  addDocuments : list Document -> result unit;
  count_rows : result string
}.

(** [!transcript || transcript.trim().length === 0] *)
Definition blank (t : option string) : bool :=
  match t with
  | None => true
  | Some str => (String.length (trim str) =? 0)%nat
  end.

(** Truthiness of [formattedRaw]: the empty string is the one falsy value
    of the three shapes. *)
Definition truthy_formatted (f : option formatted) : bool :=
  match f with
  | None | Some (FString EmptyString) => false
  | Some _ => true
  end.

(** [arr.map((seg) => (typeof seg.text === 'string' ? seg.text : ''))];
    [None] when reading [seg.text] throws. *)
Fixpoint segment_texts (arr : list segment) : option (list string) :=
  match arr with
  | [] => Some []
  | SegNullish :: _ => None
  | seg :: arr' =>
      match segment_texts arr' with
      | Some texts =>
          Some (match seg with SegText text => text | _ => EmptyString end :: texts)
      | None => None
      end
  end.

Definition join_spaces (l : list string) : string := String.concat " " l.

Definition WARN_PARSE : string := "Could not parse formatted_transcript:".
(** (The dash of this message is a plain hyphen here.) *)
Definition WARN_SKIP : string := "Received video data without transcript - skipping".

Section Ingestion.

Variable K : ingest_collaborators.

(** The [try] block that derives the transcript from the formatted one:
    the warning it logs, if any, and the transcript after it. *)
Definition derive_transcript (current : option string) (raw : formatted)
  : list ingest_event * option string :=
  let arr :=
    match raw with
    | FString encoded => parse_json K encoded
    | _ => Some raw
    end in
  match arr with
  | None => ([Warn WARN_PARSE], current)
  | Some (FArray segments) =>
      match segment_texts segments with
      | Some texts => ([], Some (join_spaces texts))
      | None => ([Warn WARN_PARSE], current)
      end
  | Some _ => ([], current)
  end.

(** The transcript after the two fallbacks, with the warnings logged on the
    way. *)
Definition resolve_transcript (v : videoData) : list ingest_event * option string :=
  let '(warnings, t) :=
    if blank (transcript v) && truthy_formatted (formatted_transcript v)
    then
      match formatted_transcript v with
      | Some raw => derive_transcript (transcript v) raw
      | None => ([], transcript v)
      end
    else ([], transcript v) in
  let t :=
    if blank t
    then match description v with Some d => Some d | None => t end
    else t in
  (warnings, t).

Definition addYTVideoToVectorStore (v : videoData) : list ingest_event * result unit :=
  let '(warnings, t) := resolve_transcript v in
  match t with
  | Some text =>
      if blank (Some text)
      then ((warnings ++ [Warn WARN_SKIP])%list, Ok tt)
      else
        let docs :=
          [{| pageContent := text; metadata := Some [("video_id", video_id v)] |}] in
        match splitDocuments K docs with
        | Throw e => ((warnings ++ [Split docs])%list, Throw e)
        | Ok chunks =>
            match addDocuments K chunks with
            | Throw e => ((warnings ++ [Split docs; AddDocuments chunks])%list, Throw e)
            | Ok _ =>
                ((warnings ++ [Split docs; AddDocuments chunks; RowCount])%list,
                 match count_rows K with
                 | Ok _ => Ok tt
                 | Throw e => Throw e
                 end)
            end
        end
  | None => ((warnings ++ [Warn WARN_SKIP])%list, Ok tt)
  end.

End Ingestion.

(** A splitter that keeps the document whole and a store that accepts
    everything, for the examples. *)
Definition plain_ingestion : ingest_collaborators :=
  {| parse_json := fun _ => None;
     splitDocuments := fun docs => Ok docs;
     addDocuments := fun _ => Ok tt;
     count_rows := Ok "1" |}.

(** ** Vocabulary of the statements *)

(** [P] holds of [s] and of every suffix of [s]. *)
Fixpoint all_suffixes (P : string -> Prop) (s : string) : Prop :=
  P s /\ match s with
         | EmptyString => True
         | String _ s' => all_suffixes P s'
         end.

(** The continuation [k] rejects the input [t], whatever was captured. *)
Definition fails (k : cont) (t : string) : Prop := forall c, k t c = None.

(** Every character of [s] is in the class [p]. *)
Fixpoint all_chars (p : ascii -> bool) (s : string) : bool :=
  match s with
  | EmptyString => true
  | String a s' => p a && all_chars p s'
  end.

(** The head of [s], if any, is outside the class [p]. *)
Definition stops (p : ascii -> bool) (s : string) : bool :=
  match s with
  | EmptyString => true
  | String a _ => negb (p a)
  end.

(** A non-empty string of decimal digits, as [\d+] captures it. *)
Definition numeral (ds : string) : Prop :=
  ds <> EmptyString /\ all_chars Char.is_digit ds = true.

(** The decimal notation of a natural number, as a template literal or
    [String(n)] prints it. *)
Definition decimal (n : nat) : string := NilEmpty.string_of_uint (Nat.to_uint n).

(** Every match of [r] takes at least one character. *)
Fixpoint consuming (r : regex) : bool :=
  match r with
  | Eps | Star _ => false
  | Chr _ | Cls _ => true
  | Cat r1 r2 => consuming r1 || consuming r2
  | Alt r1 r2 => consuming r1 && consuming r2
  | Grp _ r1 => consuming r1
  end.

(** Some character of [s] is in the class [q]. *)
Fixpoint has_char (q : ascii -> bool) (s : string) : bool :=
  match s with
  | EmptyString => false
  | String a s' => q a || has_char q s'
  end.

(** The 256 code units of the model, and inclusion of classes, decided on
    them. *)
Definition all_ascii : list ascii := map ascii_of_nat (seq 0 256).

Definition subclass (p q : ascii -> bool) : bool :=
  forallb (fun a => implb (p a) (q a)) all_ascii.

Definition outside (q : ascii -> bool) : ascii -> bool := fun a => negb (q a).

(** Every match of [r] takes some character of the class [q]. *)
Fixpoint must (ci : bool) (q : ascii -> bool) (r : regex) : bool :=
  match r with
  | Eps | Star _ => false
  | Chr a => subclass (Char.eqb_flag ci a) q
  | Cls p => subclass p q
  | Cat r1 r2 => must ci q r1 || must ci q r2
  | Alt r1 r2 => must ci q r1 && must ci q r2
  | Grp _ r1 => must ci q r1
  end.

(** Every character a match of [r] takes is in the class [q]. *)
Fixpoint within (ci : bool) (q : ascii -> bool) (r : regex) : bool :=
  match r with
  | Eps => true
  | Chr a => subclass (Char.eqb_flag ci a) q
  | Cls p => subclass p q
  | Cat r1 r2 | Alt r1 r2 => within ci q r1 && within ci q r2
  | Star r1 | Grp _ r1 => within ci q r1
  end.

(** The text [pre] a match of [r] took lies within every class the pattern
    stays within, and holds a character of every class the pattern must take
    from. *)
Definition taken (ci : bool) (q : ascii -> bool) (r : regex) (pre : string) : Prop :=
  (within ci q r = true -> all_chars q pre = true) /\
  (must ci q r = true -> has_char q pre = true).

(** The characters a video identifier is made of: all but [&], the line
    feed, [?] and [#]. *)
Definition id_char (a : ascii) : bool :=
  negb (Ascii.eqb a "&" || Ascii.eqb a Pat.LF || Ascii.eqb a "?" || Ascii.eqb a "#").

Definition not_space (a : ascii) : bool := negb (Char.is_space a).

(** The text holds a phrase of the last family of the time-range extractor:
    "around X" or "about X" with X starting with a character that is not
    white space, "midway" or "middle". *)
Definition has_window_phrase (text : string) : Prop :=
  (exists pre x rest,
     Char.is_space x = false /\
     (text = pre ++ "around " ++ String x rest \/ text = pre ++ "about " ++ String x rest)) \/
  (exists pre post, text = pre ++ "midway" ++ post \/ text = pre ++ "middle" ++ post).

Definition SENTIMENT_WORDS : list string := ["sentiment"; "emotion"; "feeling"; "tone"].
Definition METADATA_WORDS : list string :=
  ["channel"; "views"; "likes"; "date"; "published"; "duration"; "length"].

(** Video data and collaborators for the examples of the ingestion. *)
Definition talk_video : videoData :=
  {| transcript := Some " "; video_id := JStr "abc";
     formatted_transcript := Some (FArray [SegText "hello"; SegOther; SegText "world"]);
     description := Some "a talk" |}.

Definition empty_video : videoData :=
  {| transcript := Some "  "; video_id := JStr "abc";
     formatted_transcript := Some (FString ""); description := None |}.

Definition plain_video : videoData :=
  {| transcript := Some "hello"; video_id := JStr "abc";
     formatted_transcript := None; description := None |}.

Definition ingestion_store_down : ingest_collaborators :=
  {| parse_json := fun _ => None;
     splitDocuments := fun docs => Ok docs;
     addDocuments := fun _ => Throw (Failure "store down");
     count_rows := Ok "1" |}.

(** The document the ingestion makes of a text. *)
Definition document_of (v : videoData) (text : string) : Document :=
  {| pageContent := text; metadata := Some [("video_id", video_id v)] |}.

(** Where the text of an ingested video can come from: the plain
    transcript, the description, or the texts of the segments of the
    formatted transcript (given as an array or as its JSON encoding) joined
    by spaces. *)
Definition text_source (K : ingest_collaborators) (v : videoData) (t : option string)
  : Prop :=
  t = transcript v \/
  (exists d, description v = Some d /\ t = Some d) \/
  (exists segments texts,
     (formatted_transcript v = Some (FArray segments) \/
      exists raw, formatted_transcript v = Some (FString raw)
                  /\ parse_json K raw = Some (FArray segments)) /\
     segment_texts segments = Some texts /\ t = Some (join_spaces texts)).

Definition is_warning (e : ingest_event) : Prop := exists message, e = Warn message.

(** The analyzer was asked about exactly the chunks [chunks]. *)
Definition analyzed (t : trace) (userQuery : string) (chunks : list Document) : Prop :=
  In (Invoke AnalyzerLLM (AnalyzePrompt userQuery (join_lines (map pageContent chunks)))) t.

(** A chunk carries timing metadata; its [[start,end)] overlaps [[from,to)]. *)
Definition has_timing (d : Document) : bool :=
  match metadata d with
  | Some md =>
      match field md "start", field md "end" with
      | Some (JNum _), Some (JNum _) => true
      | _, _ => false
      end
  | None => false
  end.

Definition overlaps (from to : Z) (d : Document) : bool :=
  match metadata d with
  | Some md =>
      match field md "start", field md "end" with
      | Some (JNum st), Some (JNum en) => (st <? to) && (from <? en)
      | _, _ => false
      end
  | None => false
  end.

(** Modelled from the spec: the range selector [selectByRange], which
    [agent.js] calls as [getTranscriptSegmentsByTimeRange] and which no
    source file declares.  It returns the chunks whose [[start,end)] overlaps
    the requested range when some chunk carries timing metadata; otherwise
    the chunk sequence is taken to span [durationSec] uniformly and the slice
    from [floor(start/durationSec * count)] to [ceil(end/durationSec * count)]
    is returned. *)
Definition selectByRange (durationSec : Z) (chunks : list Document) (from to : Z)
  : list element :=
  if existsb has_timing chunks
  then map Some (filter (overlaps from to) chunks)
  else
    let count := Z.of_nat (List.length chunks) in
    let startIdx := from * count / durationSec in
    let endIdx := - (- (to * count) / durationSec) in
    map Some (slice chunks startIdx endIdx).

(** Collaborators for the examples: a store that holds one chunk of the
    video and answers every topic query with another one, and a store that
    is down. *)
Definition chunk (text : string) : Document :=
  {| pageContent := text; metadata := Some [("video_id", JStr "abc")] |}.

Definition one_chunk_store : collaborators :=
  {| similaritySearch := fun query _ _ =>
       match query with
       | EmptyString => Ok [chunk "hello"]
       | _ => Ok [chunk "on topic"]
       end;
     invoke := fun _ _ => Ok "answer";
     JSON_parse := fun _ => None;
     triggerYoutubeVideoScrape := fun _ => Ok tt |}.

Definition store_down : collaborators :=
  {| similaritySearch := fun _ _ _ => Throw (Failure "connection refused");
     invoke := fun _ _ => Ok "answer";
     JSON_parse := fun _ => None;
     triggerYoutubeVideoScrape := fun _ => Ok tt |}.

(** A store without chunks for the video; a store that holds the video and
    fails on topic queries; a store whose chunk has an empty metadata
    object. *)
Definition empty_store : collaborators :=
  {| similaritySearch := fun _ _ _ => Ok [];
     invoke := fun _ _ => Ok "answer";
     JSON_parse := fun _ => None;
     triggerYoutubeVideoScrape := fun _ => Ok tt |}.

Definition topic_store_down : collaborators :=
  {| similaritySearch := fun query _ _ =>
       match query with
       | EmptyString => Ok [chunk "hello"]
       | _ => Throw (Failure "connection refused")
       end;
     invoke := fun _ _ => Ok "answer";
     JSON_parse := fun _ => None;
     triggerYoutubeVideoScrape := fun _ => Ok tt |}.

Definition bare_store : collaborators :=
  {| similaritySearch := fun _ _ _ => Ok [{| pageContent := "hello"; metadata := Some [] |}];
     invoke := fun _ _ => Ok "answer";
     JSON_parse := fun _ => None;
     triggerYoutubeVideoScrape := fun _ => Ok tt |}.

(** Utterances of the examples. *)
Definition SENTIMENT_UTTERANCE : string := "what's the sentiment of this video?".
Definition ABOUT_CATS : string := "https://youtu.be/abc tell me about cats".

(** * Properties *)

(** ** The matcher *)

Module RegexFacts.

Lemma all_suffixes_here (P : string -> Prop) s : all_suffixes P s -> P s.
Proof. destruct s; simpl; tauto. Qed.

Lemma all_suffixes_mono (P Q : string -> Prop) s :
  (forall t, P t -> Q t) -> all_suffixes P s -> all_suffixes Q s.
Proof.
  intros HPQ. induction s as [|a s IH]; simpl; intros [H1 H2]; split; auto.
Qed.

Lemma all_suffixes_nested (P : string -> Prop) s :
  all_suffixes P s -> all_suffixes (all_suffixes P) s.
Proof.
  induction s as [|a s IH]; intros H.
  - simpl. split; [exact H | exact I].
  - split; [exact H|]. apply IH. destruct H as [_ H]. exact H.
Qed.

Lemma all_suffixes_app (P : string -> Prop) s t :
  (forall s', P (s' ++ t)) -> all_suffixes P t -> all_suffixes P (s ++ t).
Proof.
  intros Hs Ht. induction s as [|a s IH]; simpl.
  - exact Ht.
  - split; [exact (Hs (String a s)) | exact IH].
Qed.

Lemma star_loop_fail step k :
  (forall s c k', all_suffixes (fails k') s -> step s c k' = None) ->
  forall fuel s c, all_suffixes (fails k) s -> star_loop step k fuel s c = None.
Proof.
  intros Hstep. induction fuel as [|fuel IH]; intros s c Hs; simpl.
  - exact (all_suffixes_here _ _ Hs c).
  - rewrite Hstep.
    + exact (all_suffixes_here _ _ Hs c).
    + apply all_suffixes_mono with (P := all_suffixes (fails k)).
      * intros t Ht c1. destruct (String.length t <? String.length s)%nat; auto.
      * apply all_suffixes_nested, Hs.
Qed.

(** A pattern followed by a continuation that rejects every suffix of the
    input does not match. *)
Lemma run_fail ci r :
  forall s c k, all_suffixes (fails k) s -> run ci r s c k = None.
Proof.
  induction r as [|a|p|r1 IH1 r2 IH2|r1 IH1 r2 IH2|r1 IH1|i r1 IH1];
    intros s c k Hs; simpl.
  - exact (all_suffixes_here _ _ Hs c).
  - destruct s as [|b s']; [reflexivity|].
    destruct (Char.eqb_flag ci a b); [|reflexivity].
    destruct Hs as [_ Hs]. exact (all_suffixes_here _ _ Hs c).
  - destruct s as [|b s']; [reflexivity|].
    destruct (p b); [|reflexivity].
    destruct Hs as [_ Hs]. exact (all_suffixes_here _ _ Hs c).
  - apply IH1.
    apply all_suffixes_mono with (P := all_suffixes (fails k)).
    + intros t Ht c1. apply IH2, Ht.
    + apply all_suffixes_nested, Hs.
  - rewrite IH1, IH2 by exact Hs. reflexivity.
  - apply star_loop_fail; [|exact Hs]. intros s0 c0 k' H0. apply IH1, H0.
  - apply IH1.
    apply all_suffixes_mono with (P := fails k); [|exact Hs].
    intros t Ht c1. apply Ht.
Qed.

Lemma exec_none ci r s :
  all_suffixes (fun t => match_here ci r t = None) s -> exec ci r s = None.
Proof.
  induction s as [|a s IH]; simpl; intros [H1 H2]; rewrite H1; auto.
Qed.

Lemma exec_here ci r s m : match_here ci r s = Some m -> exec ci r s = Some m.
Proof. intros H. destruct s; simpl; rewrite H; reflexivity. Qed.

Lemma exec_skip ci r a s :
  match_here ci r (String a s) = None -> exec ci r (String a s) = exec ci r s.
Proof. intros H. simpl. rewrite H. reflexivity. Qed.

(** A match anywhere in the input is found, there or further left. *)
Lemma exec_found ci r pre t :
  match_here ci r t <> None -> exec ci r (pre ++ t) <> None.
Proof.
  intros Ht. induction pre as [|a pre IH]; simpl.
  - destruct t; simpl; destruct (match_here ci r _); congruence.
  - destruct (match_here ci r (String a (pre ++ t))); [congruence | exact IH].
Qed.

(** A greedy iteration never turns an accepting continuation into a
    failure. *)
Lemma star_loop_accepts step k fuel s c :
  k s c <> None -> star_loop step k fuel s c <> None.
Proof.
  intros Hk. destruct fuel as [|fuel]; simpl; [exact Hk|].
  destruct (step s c _); simpl; [congruence | exact Hk].
Qed.

(** The equations of [run]. *)
Lemma run_Cls ci p a s c k :
  run ci (Cls p) (String a s) c k = if p a then k s c else None.
Proof. reflexivity. Qed.

Lemma run_Chr ci a b s c k :
  run ci (Chr a) (String b s) c k = if Char.eqb_flag ci a b then k s c else None.
Proof. reflexivity. Qed.

Lemma run_Cat ci r1 r2 s c k :
  run ci (Cat r1 r2) s c k = run ci r1 s c (fun s1 c1 => run ci r2 s1 c1 k).
Proof. reflexivity. Qed.

Lemma run_Alt ci r1 r2 s c k :
  run ci (Alt r1 r2) s c k = orelse (run ci r1 s c k) (run ci r2 s c k).
Proof. reflexivity. Qed.

Lemma run_Star ci r s c k :
  run ci (Star r) s c k = star_loop (run ci r) k (String.length s) s c.
Proof. reflexivity. Qed.

Lemma run_Grp ci i r s c k :
  run ci (Grp i r) s c k =
  run ci r s c (fun s1 c1 => k s1 (set_cap i (consumed s s1) c1)).
Proof. reflexivity. Qed.

(** A greedy run of a class takes all of a block of its characters, when the
    continuation accepts what comes after the block. *)
Lemma star_class_greedy ci p k x ds :
  forall fuel rest c,
    all_chars p ds = true -> stops p rest = true ->
    (String.length (ds ++ rest) <= fuel)%nat ->
    k rest c = Some x ->
    star_loop (run ci (Cls p)) k fuel (ds ++ rest) c = Some x.
Proof.
  induction ds as [|a ds IH]; intros fuel rest c Hds Hrest Hfuel Hk.
  - simpl. destruct fuel as [|fuel]; simpl; [exact Hk|].
    destruct rest as [|b rest]; simpl in *; [exact Hk|].
    apply negb_true_iff in Hrest. rewrite Hrest. exact Hk.
  - simpl in Hds. apply andb_true_iff in Hds. destruct Hds as [Ha Hds].
    destruct fuel as [|fuel]; [simpl in Hfuel; lia|].
    cbn [append star_loop]. rewrite run_Cls, Ha.
    replace (String.length (ds ++ rest) <? String.length (String a (ds ++ rest)))%nat
      with true by (symmetry; apply Nat.ltb_lt; simpl; lia).
    rewrite (IH fuel rest c Hds Hrest); [reflexivity| |exact Hk].
    simpl in Hfuel. lia.
Qed.

(** A successful run ends in its continuation, on an input that is no
    longer than the one it started from. *)
Lemma star_loop_ends step k x :
  (forall s c k', step s c k' = Some x ->
     exists s1 c1, k' s1 c1 = Some x /\ (String.length s1 <= String.length s)%nat) ->
  forall fuel s c,
    star_loop step k fuel s c = Some x ->
    exists s1 c1, k s1 c1 = Some x /\ (String.length s1 <= String.length s)%nat.
Proof.
  intros Hstep. induction fuel as [|fuel IH]; intros s c H; simpl in H.
  - exists s, c. split; [exact H | lia].
  - destruct (step s c _) as [y|] eqn:Hy; simpl in H.
    + injection H as ->.
      apply Hstep in Hy. destruct Hy as (s1 & c1 & Hy & Hlen).
      destruct (String.length s1 <? String.length s)%nat; [|discriminate].
      apply IH in Hy. destruct Hy as (s2 & c2 & Hy & Hlen2).
      exists s2, c2. split; [exact Hy | lia].
    + exists s, c. split; [exact H | lia].
Qed.

Lemma run_ends ci r x :
  forall s c k,
    run ci r s c k = Some x ->
    exists s1 c1, k s1 c1 = Some x /\ (String.length s1 <= String.length s)%nat.
Proof.
  induction r as [|a|p|r1 IH1 r2 IH2|r1 IH1 r2 IH2|r1 IH1|i r1 IH1];
    intros s c k H; simpl in H.
  - exists s, c. split; [exact H | lia].
  - destruct s as [|b s']; [discriminate|].
    destruct (Char.eqb_flag ci a b); [|discriminate].
    exists s', c. split; [exact H | simpl; lia].
  - destruct s as [|b s']; [discriminate|].
    destruct (p b); [|discriminate].
    exists s', c. split; [exact H | simpl; lia].
  - apply IH1 in H. destruct H as (s1 & c1 & H & Hlen).
    apply IH2 in H. destruct H as (s2 & c2 & H & Hlen2).
    exists s2, c2. split; [exact H | lia].
  - destruct (run ci r1 s c k) as [y|] eqn:Hy; simpl in H.
    + injection H as ->. exact (IH1 _ _ _ Hy).
    + exact (IH2 _ _ _ H).
  - apply star_loop_ends in H; [exact H|].
    intros s0 c0 k' H0. exact (IH1 _ _ _ H0).
  - apply IH1 in H. destruct H as (s1 & c1 & H & Hlen). eauto.
Qed.

(** When every match of the pattern takes a character, the input has
    become shorter. *)
Lemma run_consumes ci r x :
  consuming r = true ->
  forall s c k,
    run ci r s c k = Some x ->
    exists s1 c1, k s1 c1 = Some x /\ (String.length s1 < String.length s)%nat.
Proof.
  induction r as [|a|p|r1 IH1 r2 IH2|r1 IH1 r2 IH2|r1 IH1|i r1 IH1];
    intros Hr s c k H; simpl in Hr, H; try discriminate.
  - destruct s as [|b s']; [discriminate|].
    destruct (Char.eqb_flag ci a b); [|discriminate].
    exists s', c. split; [exact H | simpl; lia].
  - destruct s as [|b s']; [discriminate|].
    destruct (p b); [|discriminate].
    exists s', c. split; [exact H | simpl; lia].
  - destruct (consuming r1) eqn:H1.
    + apply (IH1 eq_refl) in H. destruct H as (s1 & c1 & H & Hlen).
      apply run_ends in H. destruct H as (s2 & c2 & H & Hlen2).
      exists s2, c2. split; [exact H | lia].
    + apply run_ends in H. destruct H as (s1 & c1 & H & Hlen).
      apply (IH2 Hr) in H. destruct H as (s2 & c2 & H & Hlen2).
      exists s2, c2. split; [exact H | lia].
  - apply andb_true_iff in Hr. destruct Hr as [H1 H2].
    destruct (run ci r1 s c k) as [y|] eqn:Hy; simpl in H.
    + injection H as ->. exact (IH1 H1 _ _ _ Hy).
    + exact (IH2 H2 _ _ _ H).
  - apply (IH1 Hr) in H. destruct H as (s1 & c1 & H & Hlen). eauto.
Qed.

(** A match found by [exec] is a match at the head of some suffix. *)
Lemma exec_somewhere ci r s m :
  exec ci r s = Some m -> exists t, match_here ci r t = Some m.
Proof.
  induction s as [|a s IH]; intros H; cbn [exec] in H.
  - destruct (match_here ci r "") eqn:Hm; [|discriminate].
    exists EmptyString. congruence.
  - destruct (match_here ci r (String a s)) eqn:Hm; [|exact (IH H)].
    exists (String a s). congruence.
Qed.

Lemma consumed_nonempty s s1 :
  (String.length s1 < String.length s)%nat -> consumed s s1 <> EmptyString.
Proof.
  unfold consumed. intros H.
  destruct (String.length s - String.length s1)%nat as [|n] eqn:Hn; [lia|].
  destruct s as [|a s]; [simpl in H; lia | simpl; discriminate].
Qed.

Lemma cap_set_same i v c : cap (set_cap i v c) i = Some v.
Proof.
  revert c. induction i as [|i IH]; intros [|x c]; simpl; auto; apply IH.
Qed.

Lemma cap_nil j : cap [] j = None.
Proof. now destruct j. Qed.

Lemma cap_set_other i j v c : i <> j -> cap (set_cap i v c) j = cap c j.
Proof.
  revert j c. induction i as [|i IH]; intros [|j] [|x c] Hij;
    try congruence; try reflexivity.
  - change (cap [] j = cap [] (S j)). now rewrite !cap_nil.
  - change (cap (set_cap i v []) j = cap [] (S j)).
    rewrite IH by congruence. now rewrite !cap_nil.
  - change (cap (set_cap i v c) j = cap c j). apply IH. congruence.
Qed.

Lemma all_suffixes_block p (P : string -> Prop) s t :
  all_chars p s = true ->
  (forall s', all_chars p s' = true -> P (s' ++ t)) ->
  all_suffixes P t -> all_suffixes P (s ++ t).
Proof.
  intros Hs Hblock Ht. induction s as [|a s IH]; simpl.
  - exact Ht.
  - split; [exact (Hblock (String a s) Hs)|].
    simpl in Hs. apply andb_true_iff in Hs. apply IH, Hs.
Qed.

Lemma length_append s t :
  String.length (s ++ t) = (String.length s + String.length t)%nat.
Proof. induction s as [|a s IH]; simpl; [reflexivity | now rewrite IH]. Qed.

Lemma substring_prefix s t : substring 0 (String.length s) (s ++ t) = s.
Proof. induction s as [|a s IH]; simpl; [now destruct t | now rewrite IH]. Qed.

Lemma consumed_app s t : consumed (s ++ t) t = s.
Proof.
  unfold consumed. rewrite length_append.
  replace (String.length s + String.length t - String.length t)%nat
    with (String.length s) by lia.
  apply substring_prefix.
Qed.

(** [(p+)] in a group takes a whole non-empty block of the class and
    captures it. *)
Lemma group_plus_greedy ci i p k x ds rest c :
  ds <> EmptyString -> all_chars p ds = true -> stops p rest = true ->
  k rest (set_cap i ds c) = Some x ->
  run ci (Grp i (Plus (Cls p))) (ds ++ rest) c k = Some x.
Proof.
  intros Hne Hds Hrest Hk.
  rewrite run_Grp. unfold Plus. rewrite run_Cat.
  destruct ds as [|a ds]; [congruence|].
  simpl in Hds. apply andb_true_iff in Hds. destruct Hds as [Ha Hds].
  change (String a ds ++ rest) with (String a (ds ++ rest)) at 1.
  rewrite run_Cls, Ha, run_Star.
  apply star_class_greedy; auto.
  change (String a (ds ++ rest)) with (String a ds ++ rest).
  rewrite consumed_app. exact Hk.
Qed.

Lemma eqb_flag_refl ci a : Char.eqb_flag ci a a = true.
Proof. destruct ci; simpl; apply Ascii.eqb_refl. Qed.

(** A literal at the head of the input is consumed. *)
Lemma run_Lit_app ci l r s c k :
  run ci (Cat (Lit l) r) (l ++ s) c k = run ci r s c k.
Proof.
  induction l as [|a l IH]; [reflexivity|].
  rewrite run_Cat in *. cbn [Lit append]. rewrite run_Cat, run_Chr, eqb_flag_refl.
  exact IH.
Qed.

Lemma is_digit_cases a :
  Char.is_digit a = true ->
  In a ["0"; "1"; "2"; "3"; "4"; "5"; "6"; "7"; "8"; "9"]%char.
Proof.
  destruct a as [b0 b1 b2 b3 b4 b5 b6 b7].
  destruct b0, b1, b2, b3, b4, b5, b6, b7; intros H;
    solve [discriminate H | simpl; tauto].
Qed.

Lemma toLowerCase_app s t : toLowerCase (s ++ t) = toLowerCase s ++ toLowerCase t.
Proof. induction s as [|a s IH]; simpl; [reflexivity | now rewrite IH]. Qed.

Lemma to_lower_digit a : Char.is_digit a = true -> Char.to_lower a = a.
Proof.
  intros H. destruct (is_digit_cases a H) as [<-|[<-|[<-|[<-|[<-|[<-|[<-|[<-|[<-|[<-|[]]]]]]]]]]];
    reflexivity.
Qed.

Lemma toLowerCase_digits ds : all_chars Char.is_digit ds = true -> toLowerCase ds = ds.
Proof.
  induction ds as [|a ds IH]; simpl; [reflexivity|].
  intros H. apply andb_true_iff in H. destruct H as [Ha Hds].
  now rewrite to_lower_digit, IH.
Qed.

End RegexFacts.

Import RegexFacts.

(** ** What a match takes from the input *)

Module MatchFacts.

Lemma in_all_ascii a : In a all_ascii.
Proof.
  unfold all_ascii. rewrite <- (ascii_nat_embedding a).
  apply in_map, in_seq. pose proof (nat_ascii_bounded a). lia.
Qed.

Lemma subclass_sound p q : subclass p q = true -> forall a, p a = true -> q a = true.
Proof.
  unfold subclass. rewrite forallb_forall. intros H a Ha.
  specialize (H a (in_all_ascii a)). rewrite Ha in H. exact H.
Qed.

Lemma all_chars_app p s t : all_chars p (s ++ t) = all_chars p s && all_chars p t.
Proof. induction s as [|a s IH]; simpl; [reflexivity | now rewrite IH, andb_assoc]. Qed.

Lemma has_char_app q s t : has_char q (s ++ t) = has_char q s || has_char q t.
Proof. induction s as [|a s IH]; simpl; [reflexivity | now rewrite IH, orb_assoc]. Qed.

Lemma all_chars_subclass p q s :
  subclass p q = true -> all_chars p s = true -> all_chars q s = true.
Proof.
  intros Hpq. induction s as [|a s IH]; simpl; [reflexivity|].
  intros H. apply andb_true_iff in H. destruct H as [Ha Hs].
  now rewrite (subclass_sound p q Hpq a Ha), IH.
Qed.

Lemma has_char_outside q s : all_chars (outside q) s = true -> has_char q s = false.
Proof.
  induction s as [|a s IH]; simpl; [reflexivity|].
  unfold outside at 1. intros H. apply andb_true_iff in H. destruct H as [Ha Hs].
  apply negb_true_iff in Ha. now rewrite Ha, IH.
Qed.

Lemma append_assoc (s t u : string) : (s ++ t) ++ u = s ++ t ++ u.
Proof. induction s as [|a s IH]; simpl; [reflexivity | now rewrite IH]. Qed.

Lemma append_nil_r (s : string) : s ++ "" = s.
Proof. induction s as [|a s IH]; simpl; [reflexivity | now rewrite IH]. Qed.

(** What a successful run hands to its continuation is the input without a
    prefix, the text the pattern took; [taken] says what that prefix holds. *)
Lemma star_loop_takes ci q r1 k x
  (Hstep : forall s c k', run ci r1 s c k' = Some x ->
     exists pre s1 c1, s = pre ++ s1 /\ k' s1 c1 = Some x /\ taken ci q r1 pre) :
  forall fuel s c,
    star_loop (run ci r1) k fuel s c = Some x ->
    exists pre s1 c1, s = pre ++ s1 /\ k s1 c1 = Some x /\ taken ci q (Star r1) pre.
Proof.
  assert (Hnil : taken ci q (Star r1) "") by (split; [reflexivity | discriminate]).
  induction fuel as [|fuel IH]; intros s c H; simpl in H.
  - exists EmptyString, s, c. auto.
  - destruct (run ci r1 s c _) as [y|] eqn:Hy; simpl in H.
    + assert (y = x) by congruence. subst y.
      apply Hstep in Hy. destruct Hy as (pre & s1 & c1 & -> & Hy & Hw & _).
      destruct (String.length s1 <? String.length (pre ++ s1))%nat; [|discriminate].
      apply IH in Hy. destruct Hy as (pre2 & s2 & c2 & -> & Hy & Hw2 & _).
      exists (pre ++ pre2), s2, c2. rewrite append_assoc.
      repeat split; auto; [|discriminate].
      intros W. rewrite all_chars_app, (Hw W), (Hw2 W). reflexivity.
    + exists EmptyString, s, c. auto.
Qed.

Lemma run_takes ci q r x :
  forall s c k,
    run ci r s c k = Some x ->
    exists pre s1 c1, s = pre ++ s1 /\ k s1 c1 = Some x /\ taken ci q r pre.
Proof.
  induction r as [|a|p|r1 IH1 r2 IH2|r1 IH1 r2 IH2|r1 IH1|i r1 IH1];
    intros s c k H.
  - exists EmptyString, s, c. repeat split; auto; discriminate.
  - destruct s as [|b s']; [discriminate|]. rewrite run_Chr in H.
    destruct (Char.eqb_flag ci a b) eqn:Hab; [|discriminate].
    exists (String b EmptyString), s', c. repeat split; auto; simpl; intros W;
      now rewrite (subclass_sound _ _ W b Hab).
  - destruct s as [|b s']; [discriminate|]. rewrite run_Cls in H.
    destruct (p b) eqn:Hb; [|discriminate].
    exists (String b EmptyString), s', c. repeat split; auto; simpl; intros W;
      now rewrite (subclass_sound _ _ W b Hb).
  - rewrite run_Cat in H.
    apply IH1 in H. destruct H as (pre1 & s1 & c1 & -> & H & Hw1 & Hm1).
    apply IH2 in H. destruct H as (pre2 & s2 & c2 & -> & H & Hw2 & Hm2).
    exists (pre1 ++ pre2), s2, c2. rewrite append_assoc. repeat split; auto; simpl.
    + intros W. apply andb_true_iff in W. destruct W as [W1 W2].
      now rewrite all_chars_app, (Hw1 W1), (Hw2 W2).
    + intros W. rewrite has_char_app. apply orb_true_iff in W.
      destruct W as [W|W]; [rewrite (Hm1 W) | rewrite (Hm2 W), orb_true_r]; reflexivity.
  - rewrite run_Alt in H.
    destruct (run ci r1 s c k) as [y|] eqn:Hy; simpl in H.
    + assert (y = x) by congruence. subst y.
      destruct (IH1 _ _ _ Hy) as (pre & s1 & c1 & -> & Hk & Hw & Hm).
      exists pre, s1, c1. repeat split; auto; simpl; intros W;
        apply andb_true_iff in W; destruct W; auto.
    + destruct (IH2 _ _ _ H) as (pre & s1 & c1 & -> & Hk & Hw & Hm).
      exists pre, s1, c1. repeat split; auto; simpl; intros W;
        apply andb_true_iff in W; destruct W; auto.
  - rewrite run_Star in H.
    exact (star_loop_takes ci q r1 k x (fun s0 c0 k' => IH1 s0 c0 k') _ _ _ H).
  - rewrite run_Grp in H.
    destruct (IH1 _ _ _ H) as (pre & s1 & c1 & -> & Hk & Hw & Hm).
    exists pre, s1, (set_cap i (consumed (pre ++ s1) s1) c1). repeat split; auto.
Qed.

(** A match found by [exec] is a match at the head of a suffix of the
    input. *)
Lemma exec_at ci r s m :
  exec ci r s = Some m -> exists pre t, s = pre ++ t /\ match_here ci r t = Some m.
Proof.
  induction s as [|a s IH]; intros H; cbn [exec] in H.
  - destruct (match_here ci r "") eqn:Hm; [|discriminate].
    exists EmptyString, EmptyString. split; [reflexivity | congruence].
  - destruct (match_here ci r (String a s)) eqn:Hm.
    + exists EmptyString, (String a s). split; [reflexivity | congruence].
    + destruct (IH H) as (pre & t & -> & Ht).
      exists (String a pre), t. split; [reflexivity | exact Ht].
Qed.

(** A pattern that must take a character of a class matches nowhere in an
    input without any character of that class. *)
Lemma exec_lacks ci q r s :
  must ci q r = true -> all_chars (outside q) s = true -> exec ci r s = None.
Proof.
  intros Hmust Hs. destruct (exec ci r s) as [m|] eqn:Hm; [|reflexivity].
  apply exec_at in Hm. destruct Hm as (pre & t & -> & Hm).
  unfold match_here in Hm.
  apply (run_takes ci q) in Hm. destruct Hm as (pre1 & s1 & c1 & -> & _ & _ & Hhas).
  rewrite !all_chars_app in Hs.
  apply andb_true_iff in Hs. destruct Hs as [_ Hs].
  apply andb_true_iff in Hs. destruct Hs as [Hs _].
  apply has_char_outside in Hs. rewrite (Hhas Hmust) in Hs. discriminate.
Qed.

End MatchFacts.

Import MatchFacts.

(** ** Phrases with a number *)

(** The case analysis on a character known to be a digit. *)
Ltac digit_cases a H :=
  destruct (is_digit_cases a H)
    as [<-|[<-|[<-|[<-|[<-|[<-|[<-|[<-|[<-|[<-|[]]]]]]]]]]].

(** Goals over the suffixes of an input: the suffixes with a known head are
    settled by evaluation, a block of digits by [on_block]. *)
Ltac suffixes_by on_block :=
  cbn [append all_suffixes];
  repeat match goal with
    | |- _ /\ _ => split
    | |- True => exact I
    | |- all_suffixes _ (_ ++ _) =>
        apply all_suffixes_block with (p := Char.is_digit); [assumption | on_block |]
    | |- all_suffixes _ _ => progress cbn [all_suffixes]
    | |- fails _ _ => intro; reflexivity
    | |- _ = None => reflexivity
    end.

(** A pattern that starts with a literal does not match at a digit. *)
Ltac literal_at_digits :=
  let s := fresh "s" in let a := fresh "a" in let H := fresh "H" in
  let Ha := fresh "Ha" in
  intros s H; destruct s as [|a s];
  [ try intro; reflexivity
  | simpl in H; apply andb_true_iff in H; destruct H as [Ha H];
    digit_cases a Ha; try intro; reflexivity ].

(** A pattern that starts with [(\d+)] does not match at a digit when what
    follows the group matches nowhere in the rest of the input. *)
Ltac number_at_digits :=
  let s := fresh "s" in let H := fresh "H" in
  intros s H; unfold match_here;
  match goal with |- run _ ?r _ _ _ = None => unfold r end;
  rewrite run_Cat; apply run_fail;
  apply all_suffixes_block with (p := Char.is_digit);
  [ exact H | literal_at_digits | suffixes_by idtac ].

Ltac absent_literal := apply exec_none; suffixes_by literal_at_digits.
Ltac absent_number := apply exec_none; suffixes_by number_at_digits.

(** A pattern [literal (\d+) rest] matches at the head of an input made of
    the literal, a numeral and a text on which [rest] matches. *)
Ltac matches_after_literal :=
  eexists; apply exec_here; unfold match_here;
  match goal with |- run _ ?r _ _ _ = _ => unfold r end;
  rewrite run_Lit_app, run_Cat;
  apply group_plus_greedy; [assumption | assumption | reflexivity | reflexivity].

(** [(\d+)] of the "Nth minute" pattern matches after [skip] characters that
    are not digits. *)
Tactic Notation "number_after" integer(skip) :=
  eexists; cbn [append];
  do skip (rewrite exec_skip by reflexivity);
  apply exec_here; unfold match_here, Pat.nthMinute; rewrite run_Cat;
  apply group_plus_greedy; [assumption | assumption | reflexivity | reflexivity].

Section NumberPhrases.

Variable ds : string.
Hypothesis ds_nonempty : ds <> EmptyString.
Hypothesis ds_digits : all_chars Char.is_digit ds = true.

(** The "Nth minute" pattern finds "N minute" in the phrases with the unit
    minute, and nothing in the phrases with another unit. *)
Lemma nthMinute_in_first_minutes :
  exists whole,
    exec false Pat.nthMinute ("first " ++ ds ++ " minutes") = Some [Some whole; Some ds].
Proof. number_after 6. Qed.

Lemma nthMinute_in_last_minutes :
  exists whole,
    exec false Pat.nthMinute ("last " ++ ds ++ " minutes") = Some [Some whole; Some ds].
Proof. number_after 5. Qed.

Lemma nthMinute_not_in_first_hours :
  exec false Pat.nthMinute ("first " ++ ds ++ " hours") = None.
Proof. absent_number. Qed.

Lemma nthMinute_not_in_first_seconds :
  exec false Pat.nthMinute ("first " ++ ds ++ " seconds") = None.
Proof. absent_number. Qed.

Lemma nthMinute_not_in_last_hours :
  exec false Pat.nthMinute ("last " ++ ds ++ " hours") = None.
Proof. absent_number. Qed.

Lemma nthMinute_not_in_last_seconds :
  exec false Pat.nthMinute ("last " ++ ds ++ " seconds") = None.
Proof. absent_number. Qed.

(** The "first N unit" pattern. *)
Lemma firstN_in_first_minutes :
  exists whole,
    exec false Pat.firstN ("first " ++ ds ++ " minutes")
    = Some [Some whole; Some ds; Some "minute"].
Proof. matches_after_literal. Qed.

Lemma firstN_in_first_hours :
  exists whole,
    exec false Pat.firstN ("first " ++ ds ++ " hours")
    = Some [Some whole; Some ds; Some "hour"].
Proof. matches_after_literal. Qed.

Lemma firstN_in_first_seconds :
  exists whole,
    exec false Pat.firstN ("first " ++ ds ++ " seconds")
    = Some [Some whole; Some ds; Some "second"].
Proof. matches_after_literal. Qed.

Lemma firstN_not_in_last_hours :
  exec false Pat.firstN ("last " ++ ds ++ " hours") = None.
Proof. absent_literal. Qed.

Lemma firstN_not_in_last_seconds :
  exec false Pat.firstN ("last " ++ ds ++ " seconds") = None.
Proof. absent_literal. Qed.

(** The "last N unit" pattern. *)
Lemma lastN_in_last_hours :
  exists whole,
    exec false Pat.lastN ("last " ++ ds ++ " hours")
    = Some [Some whole; Some ds; Some "hour"].
Proof. matches_after_literal. Qed.

Lemma lastN_in_last_seconds :
  exists whole,
    exec false Pat.lastN ("last " ++ ds ++ " seconds")
    = Some [Some whole; Some ds; Some "second"].
Proof. matches_after_literal. Qed.

(** The explicit-range patterns find nothing in "first N minutes". *)
Lemma fromTo_not_in_first_minutes :
  exec true Pat.fromTo ("first " ++ ds ++ " minutes") = None.
Proof. absent_literal. Qed.

Lemma betweenAnd_not_in_first_minutes :
  exec true Pat.betweenAnd ("first " ++ ds ++ " minutes") = None.
Proof. absent_literal. Qed.

Lemma minutesTo_not_in_first_minutes :
  exec true Pat.minutesTo ("first " ++ ds ++ " minutes") = None.
Proof. absent_literal. Qed.

(** The phrases are in lower case already. *)
Lemma toLowerCase_phrase kw tail :
  toLowerCase kw = kw -> toLowerCase tail = tail ->
  toLowerCase (kw ++ ds ++ tail) = kw ++ ds ++ tail.
Proof.
  intros Hkw Htail.
  now rewrite !toLowerCase_app, Hkw, Htail, toLowerCase_digits.
Qed.

End NumberPhrases.

(** ** The time-expression parser *)

(** The parser on a phrase [kw N unit], once the matches of its patterns on
    the phrase are known. *)
Ltac parse_phrase :=
  let Hne := fresh "Hne" in let Hds := fresh "Hds" in
  intros [Hne Hds]; unfold parseTimeString;
  rewrite toLowerCase_phrase by (reflexivity || assumption);
  repeat match goal with
    | |- context [exec false ?r (?kw ++ ?ds ++ ?tail)] =>
        first
          [ rewrite (nthMinute_not_in_first_hours ds Hds)
          | rewrite (nthMinute_not_in_first_seconds ds Hds)
          | rewrite (nthMinute_not_in_last_hours ds Hds)
          | rewrite (nthMinute_not_in_last_seconds ds Hds)
          | rewrite (firstN_not_in_last_hours ds Hds)
          | rewrite (firstN_not_in_last_seconds ds Hds) ]
    end.

Lemma parse_first_minutes ds D :
  numeral ds -> parseTimeString ("first " ++ ds ++ " minutes") D = parseInt ds * 60.
Proof.
  parse_phrase. destruct (nthMinute_in_first_minutes ds Hne Hds) as [w ->].
  reflexivity.
Qed.

(** "last N minutes" never reaches the branch written for it: the "Nth
    minute" pattern, tried first, matches "N minute". *)
Lemma parse_last_minutes ds D :
  numeral ds -> parseTimeString ("last " ++ ds ++ " minutes") D = parseInt ds * 60.
Proof.
  parse_phrase. destruct (nthMinute_in_last_minutes ds Hne Hds) as [w ->].
  reflexivity.
Qed.

Lemma parse_first_hours ds D :
  numeral ds -> parseTimeString ("first " ++ ds ++ " hours") D = 0.
Proof.
  parse_phrase. destruct (firstN_in_first_hours ds Hne Hds) as [w ->].
  reflexivity.
Qed.

Lemma parse_first_seconds ds D :
  numeral ds -> parseTimeString ("first " ++ ds ++ " seconds") D = 0.
Proof.
  parse_phrase. destruct (firstN_in_first_seconds ds Hne Hds) as [w ->].
  reflexivity.
Qed.

Lemma parse_last_hours ds D :
  numeral ds -> parseTimeString ("last " ++ ds ++ " hours") D = D - parseInt ds * 3600.
Proof.
  parse_phrase. destruct (lastN_in_last_hours ds Hne Hds) as [w ->].
  reflexivity.
Qed.

Lemma parse_last_seconds ds D :
  numeral ds -> parseTimeString ("last " ++ ds ++ " seconds") D = D - parseInt ds.
Proof.
  parse_phrase. destruct (lastN_in_last_seconds ds Hne Hds) as [w ->].
  reflexivity.
Qed.

Lemma digits_value_nonneg s : forall acc, 0 <= acc -> 0 <= digits_value acc s.
Proof.
  induction s as [|a s IH]; intros acc Hacc; simpl; [exact Hacc|].
  destruct (Char.is_digit a) eqn:Ha; [|exact Hacc].
  apply IH. digit_cases a Ha; unfold Char.digit_val; simpl; lia.
Qed.

Lemma parseInt_nonneg s : 0 <= parseInt s.
Proof. apply digits_value_nonneg. lia. Qed.

(** Only the "last N unit" branch subtracts: when that pattern does not
    match, the parser returns a non-negative number for a non-negative
    duration. *)
Lemma parse_nonneg_without_last str D :
  0 <= D -> exec false Pat.lastN (toLowerCase str) = None ->
  0 <= parseTimeString str D.
Proof.
  intros HD Hlast.
  assert (Hhalf : 0 <= D / 2) by (apply Z.div_pos; lia).
  unfold parseTimeString, by_unit. rewrite Hlast.
  generalize dependent (D / 2). intros half Hhalf.
  generalize (toLowerCase str). intros low.
  repeat match goal with
    | |- context [match exec ?b ?r low with _ => _ end] => destruct (exec b r low)
    | |- context [if startsWith ?u ?p then _ else _] => destruct (startsWith u p)
    | |- context [if test ?b ?r low then _ else _] => destruct (test b r low)
    | |- context [if truthy_group ?m ?i then _ else _] => destruct (truthy_group m i)
    | _ => progress cbn [or_continue]
    end;
    repeat match goal with
      | |- context [parseInt ?t] =>
          let H := fresh "H" in
          pose proof (parseInt_nonneg t) as H; generalize dependent (parseInt t); intros
      end;
    lia.
Qed.

(** Numerals and the numbers they denote. *)
Lemma digits_value_cons acc a s :
  Char.is_digit a = true ->
  digits_value acc (String a s) = digits_value (acc * 10 + Char.digit_val a) s.
Proof. intros H. simpl. now rewrite H. Qed.

Lemma digits_value_uint d :
  forall acc, 0 <= acc ->
    digits_value acc (NilEmpty.string_of_uint d) = Z.of_nat (Nat.of_uint_acc d (Z.to_nat acc)).
Proof.
  induction d as [|d IH|d IH|d IH|d IH|d IH|d IH|d IH|d IH|d IH|d IH];
    intros acc Hacc; cbn [NilEmpty.string_of_uint Nat.of_uint_acc];
    [ cbn [digits_value]; lia | .. ];
    rewrite digits_value_cons by reflexivity;
    match goal with
    | |- context [Char.digit_val ?a] =>
        let v := eval vm_compute in (Char.digit_val a) in
        change (Char.digit_val a) with v
    end;
    rewrite IH by lia; rewrite Nat.tail_mul_spec;
    f_equal; f_equal; lia.
Qed.

Lemma parseInt_decimal n : parseInt (decimal n) = Z.of_nat n.
Proof.
  unfold parseInt, decimal. rewrite digits_value_uint by lia.
  change (Nat.of_uint_acc (Nat.to_uint n) (Z.to_nat 0)) with (Nat.of_uint (Nat.to_uint n)).
  now rewrite Unsigned.of_to.
Qed.

Lemma all_digits_uint d : all_chars Char.is_digit (NilEmpty.string_of_uint d) = true.
Proof. induction d; simpl; auto. Qed.

Lemma numeral_decimal n : numeral (decimal n).
Proof.
  split; [|apply all_digits_uint].
  unfold decimal. intros H.
  assert (Hnil : Nat.to_uint n = Decimal.Nil) by (destruct (Nat.to_uint n); simpl in H; congruence).
  pose proof (Unsigned.to_of (Nat.to_uint n)) as Hto.
  rewrite Unsigned.of_to, Hnil in Hto.
  exact (unorm_nonnil _ (eq_sym Hto)).
Qed.



(** C6. "first N minutes" does not parse to 0: the "Nth minute" pattern,
    tried first, matches "N minute", and the parser returns N*60, for every
    number N and every duration. *)
Theorem C6_first_minutes_is_not_zero (N : nat) (D : Z) :
  parseTimeString ("first " ++ decimal N ++ " minutes") D = Z.of_nat N * 60.
Proof.
  rewrite <- (parseInt_decimal N). apply parse_first_minutes, numeral_decimal.
Qed.

(** For the two other units the parser does return 0. *)
Lemma parse_first_hours_seconds (N : nat) (D : Z) :
  parseTimeString ("first " ++ decimal N ++ " hours") D = 0 /\
  parseTimeString ("first " ++ decimal N ++ " seconds") D = 0.
Proof.
  split; [apply parse_first_hours | apply parse_first_seconds]; apply numeral_decimal.
Qed.

Example parse_first_5_minutes : parseTimeString "first 5 minutes" 10800 = 300.
Proof. reflexivity. Qed.

(** "last N minutes" parses to N*60 as well, whatever the duration. *)
Lemma parse_last_N_minutes (N : nat) (D : Z) :
  parseTimeString ("last " ++ decimal N ++ " minutes") D = Z.of_nat N * 60.
Proof.
  rewrite <- (parseInt_decimal N). apply parse_last_minutes, numeral_decimal.
Qed.

(** ** The time-range extractor *)

(** The phrase on its own, for every numeral and for every number. *)
Lemma extract_first_minutes ds D :
  numeral ds ->
  extractTimeRange ("first " ++ ds ++ " minutes") D
  = Some {| start := 0; end_ := parseInt ds * 60 |}.
Proof.
  intros [Hne Hds]. destruct (firstN_in_first_minutes ds Hne Hds) as [w Hw].
  unfold extractTimeRange.
  rewrite (fromTo_not_in_first_minutes ds Hds), (betweenAnd_not_in_first_minutes ds Hds),
    (minutesTo_not_in_first_minutes ds Hds), Hw.
  reflexivity.
Qed.

Lemma extract_first_N_minutes (N : nat) (D : Z) :
  extractTimeRange ("first " ++ decimal N ++ " minutes") D
  = Some {| start := 0; end_ := Z.of_nat N * 60 |}.
Proof.
  rewrite <- (parseInt_decimal N). apply extract_first_minutes, numeral_decimal.
Qed.




(** The explicit-range pattern on "from 1:00:00 to 1:30:00", and the parser
    on the two endpoints it captures: only the colon pattern matches them. *)
Lemma fromTo_colon_times :
  exec true Pat.fromTo "from 1:00:00 to 1:30:00"
  = Some [Some "from 1:00:00 to 1:30:00"; Some "1:00:00"; Some "1:30:00"].
Proof. reflexivity. Qed.

Lemma colon_in_endpoints :
  exec false Pat.colon "1:00:00" = Some [Some "1:00:00"; Some "1"; Some "00"; Some "00"] /\
  exec false Pat.colon "1:30:00" = Some [Some "1:30:00"; Some "1"; Some "30"; Some "00"].
Proof. split; reflexivity. Qed.

Lemma parse_endpoints (D : Z) :
  parseTimeString "1:00:00" D = 1 * 3600 + 0 * 60 + 0 /\
  parseTimeString "1:30:00" D = 1 * 3600 + 30 * 60 + 0.
Proof.
  destruct colon_in_endpoints as [H1 H2].
  unfold parseTimeString.
  change (toLowerCase "1:00:00") with "1:00:00".
  change (toLowerCase "1:30:00") with "1:30:00".
  rewrite H1, H2. split; reflexivity.
Qed.

(** C7. Whatever the duration, the range of "from 1:00:00 to 1:30:00" starts
    at 3600 seconds and ends at 5400 seconds. *)
Theorem C7_from_to_colon_times (D : Z) :
  extractTimeRange "from 1:00:00 to 1:30:00" D = Some {| start := 3600; end_ := 5400 |}.
Proof.
  destruct (parse_endpoints D) as [Hstart Hend].
  unfold extractTimeRange.
  rewrite fromTo_colon_times. cbn [first_match].
  change (truthy_group _ 3) with false. cbn [andb].
  change (group _ 1) with "1:00:00". change (group _ 2) with "1:30:00".
  rewrite Hstart, Hend. reflexivity.
Qed.

(** ** The segment selectors *)

Lemma selectors_on_no_chunks (n : Z) :
  getTranscriptSegmentByMinute [] n = [] /\
  getTranscriptSegmentBySeconds [] n = [] /\
  getTranscriptSegmentLastMinute [] = [].
Proof. repeat split. Qed.

(** The two selectors that slice return chunks only. *)
Lemma slicing_selectors_return_chunks docs n :
  ~ In None (getTranscriptSegmentByMinute docs n) /\
  ~ In None (getTranscriptSegmentLastMinute docs).
Proof.
  split; destruct docs as [|d docs]; simpl; try tauto;
    intros H; apply in_map_iff in H; destruct H as [x [Hx _]]; discriminate.
Qed.

Lemma at_index_past_end {A : Type} (l : list A) (i : Z) :
  Z.of_nat (List.length l) <= i -> at_index l i = None.
Proof.
  intros H. unfold at_index.
  destruct (i <? 0) eqn:Hi; [reflexivity|].
  apply nth_error_None. lia.
Qed.

(** C4. [getTranscriptSegmentBySeconds] does not return an empty sequence
    when its index falls outside the chunk list: with chunks present, no
    chunk whose timing covers the instant, and an instant at or past the 600
    seconds it assumes, it returns a one-element sequence that holds
    [undefined]. *)
Theorem C4_seconds_past_duration (docs : list Document) (secs : Z) :
  docs <> [] -> find (covers secs) docs = None -> 600 <= secs ->
  getTranscriptSegmentBySeconds docs secs = [None].
Proof.
  intros Hdocs Hfind Hsecs.
  unfold getTranscriptSegmentBySeconds. rewrite Hfind.
  destruct docs as [|d docs]; [congruence|].
  f_equal. apply at_index_past_end.
  change (10 * 60) with 600.
  apply Z.div_le_lower_bound; [lia|]. nia.
Qed.

Lemma C4_seconds_past_duration_witness :
  getTranscriptSegmentBySeconds [chunk "hello"] 600 = [None].
Proof.
  apply (C4_seconds_past_duration [chunk "hello"] 600);
    [discriminate | reflexivity | lia].
Defined.

(** The router takes that sequence for a segment and the analysis throws:
    "at 10:00" on a one-chunk transcript. *)
Lemma timestamp_past_duration_throws :
  outcome (agent one_chunk_store "https://youtu.be/abc what happens at 10:00") =
  ([Search "" 40 (Some "abc")],
   Throw (TypeError "Cannot read properties of undefined (reading 'pageContent')")).
Proof. reflexivity. Qed.

(** ** The router *)

(** The video identifier, when there is one, is not the empty string, so the
    test [if (videoId)] passes. *)
Lemma video_id_nonempty url id : getVideoIdFromUrl url = Some id -> id <> EmptyString.
Proof.
  unfold getVideoIdFromUrl.
  destruct (exec false Pat.videoId url) as [m|] eqn:Hm; [|discriminate].
  intros Hid. apply exec_somewhere in Hm. destruct Hm as [t Hm].
  unfold match_here, Pat.videoId in Hm. rewrite run_Cat in Hm.
  apply run_ends in Hm. destruct Hm as (s1 & c1 & Hm & _).
  rewrite run_Grp in Hm.
  apply run_consumes in Hm; [|reflexivity].
  destruct Hm as (s2 & c2 & Hm & Hlen).
  assert (Em : m = set_cap 0 (consumed t s2) (set_cap 1 (consumed s1 s2) c2))
    by congruence.
  rewrite Em, cap_set_other, cap_set_same in Hid by discriminate.
  injection Hid as <-. apply consumed_nonempty, Hlen.
Qed.

Section RouterFacts.

Variable C : collaborators.

(** What the agent does up to the test [docs.length > 0], when the utterance
    carries a video URL and the store answers. *)
Lemma agent_with_chunks sel input youtubeUrl id docs :
  extractYoutubeUrl input = Some youtubeUrl ->
  getVideoIdFromUrl youtubeUrl = Some id ->
  similaritySearch C "" 40 (Some id) = Ok docs -> docs <> [] ->
  agent_in_scope C sel input [] =
  with_docs C sel input (Some id) docs (fst (video_context docs))
    (snd (video_context docs)) [Search "" 40 (Some id)].
Proof.
  intros Hurl Hid Hsearch Hdocs.
  pose proof (video_id_nonempty _ _ Hid) as Hne.
  unfold agent_in_scope. rewrite Hurl, Hid.
  destruct id as [|a id]; [congruence|].
  unfold bind, retrieve, try_catch, bind, vector_search, call, ret.
  rewrite Hsearch. cbn [app].
  destruct docs; [congruence | reflexivity].
Qed.

(** The same when the store throws: the error is logged and the scrape
    trigger runs. *)
Lemma agent_store_throws sel input youtubeUrl id err :
  extractYoutubeUrl input = Some youtubeUrl ->
  getVideoIdFromUrl youtubeUrl = Some id ->
  similaritySearch C "" 40 (Some id) = Throw err ->
  agent_in_scope C sel input [] =
  trigger_scrape C youtubeUrl
    [Search "" 40 (Some id); ConsoleError "Vector store retrieval error:" err].
Proof.
  intros Hurl Hid Hsearch.
  pose proof (video_id_nonempty _ _ Hid) as Hne.
  unfold agent_in_scope. rewrite Hurl, Hid.
  destruct id as [|a id]; [congruence|].
  unfold bind, retrieve, try_catch, bind, vector_search, call, ret, console_error.
  rewrite Hsearch. reflexivity.
Qed.

End RouterFacts.

(** C1. The range branch of the router calls
    [getTranscriptSegmentsByTimeRange], an identifier the module neither
    declares nor imports: whenever the utterance carries a video URL, chunks
    are present and [extractTimeRange] finds a range, the agent stops with a
    ReferenceError right after the retrieval. *)
Theorem C1_range_branch_raises (C : collaborators) input youtubeUrl id docs :
  extractYoutubeUrl input = Some youtubeUrl ->
  getVideoIdFromUrl youtubeUrl = Some id ->
  similaritySearch C "" 40 (Some id) = Ok docs -> docs <> [] ->
  extractTimeRange input (snd (video_context docs)) <> None ->
  outcome (agent C input) =
  ([Search "" 40 (Some id)], Throw (ReferenceError "getTranscriptSegmentsByTimeRange")).
Proof.
  intros Hurl Hid Hsearch Hdocs Hrange.
  unfold outcome, agent.
  rewrite (agent_with_chunks C None input youtubeUrl id docs) by assumption.
  unfold with_docs, time_range_query.
  destruct (extractTimeRange input (snd (video_context docs))); [reflexivity | congruence].
Qed.

Lemma C1_range_branch_raises_witness :
  outcome (agent one_chunk_store "https://youtu.be/abc what happens in the first 5 minutes") =
  ([Search "" 40 (Some "abc")], Throw (ReferenceError "getTranscriptSegmentsByTimeRange")).
Proof.
  apply (C1_range_branch_raises one_chunk_store
           "https://youtu.be/abc what happens in the first 5 minutes"
           "https://youtu.be/abc" "abc" [chunk "hello"]);
    try reflexivity; vm_compute; discriminate.
Defined.



(** C8. On "what's the sentiment of this video?" no time range, timestamp
    or topic is extracted and the sentiment test fires: whatever the chunks,
    the metadata and the duration, the block of the router that runs when
    chunks are present asks the analyzer for the sentiment of the whole
    transcript first, and makes no other call before it. *)
Theorem C8_sentiment_request (C : collaborators)
  (sel : option (list Document -> Z -> Z -> list element))
  (videoId : option string) (docs : list Document) (md : object) (D : Z) :
  extractTimeRange SENTIMENT_UTTERANCE D = None /\
  extractMinuteOrTimestamp SENTIMENT_UTTERANCE = None /\
  extractTopic SENTIMENT_UTTERANCE = None /\
  isSentimentRequest SENTIMENT_UTTERANCE = true /\
  with_docs C sel SENTIMENT_UTTERANCE videoId docs md D [] =
    (analysis <- llm_invoke C AnalyzerLLM
                   (SentimentPrompt (join_lines (map pageContent docs))) ;;
     summarizeAnalyzerResult C (AnswerOnly analysis) SENTIMENT_UTTERANCE) [] /\
  exists rest,
    fst (with_docs C sel SENTIMENT_UTTERANCE videoId docs md D []) =
    Invoke AnalyzerLLM (SentimentPrompt (join_lines (map pageContent docs))) :: rest.
Proof.
  repeat split.
  unfold with_docs, sentiment_query at 1.
  change (extractTimeRange _ D) with (@None Range).
  unfold bind, llm_invoke, call, summarizeAnalyzerResult.
  cbn [app].
  destruct (invoke C AnalyzerLLM _); eexists; reflexivity.
Qed.

(** The same request in an utterance that carries the URL of the video, as
    the agent receives it. *)
Lemma sentiment_request_with_url :
  outcome (agent one_chunk_store "what's the sentiment of this video? https://youtu.be/abc") =
  ([Search "" 40 (Some "abc"); Invoke AnalyzerLLM (SentimentPrompt "hello");
    Invoke SummarizerLLM
      (SummarizePrompt "what's the sentiment of this video? https://youtu.be/abc"
         (AnswerOnly "answer"))],
   Ok "answer").
Proof. reflexivity. Qed.

(** C10. When the "Nth minute" pattern captures a numeral of value 0, the
    timestamp extractor returns the shape with [minute] 0; the test on
    [timeRef.minute] is false for it and the two other fields are absent, so
    no segment is selected whatever the chunks, and the timestamp step hands
    over to the branches that follow it. *)
Theorem C10_minute_zero_selects_nothing (C : collaborators)
  (input : string) (docs : list Document) (m : captures) (rest : M string) :
  exec false Pat.nthMinute input = Some m ->
  parseInt (group m 1) = 0 ->
  extractMinuteOrTimestamp input = Some (RefMinute 0) /\
  timestamp_segment docs (RefMinute 0) = [] /\
  timestamp_query C input docs rest = rest.
Proof.
  intros Hm H0.
  assert (Hx : extractMinuteOrTimestamp input = Some (RefMinute 0)).
  { unfold extractMinuteOrTimestamp. now rewrite Hm, H0. }
  split; [exact Hx|]. split; [reflexivity|].
  unfold timestamp_query. rewrite Hx. reflexivity.
Qed.

(** In the router: with no time range either, the topic step is next. *)
Lemma minute_zero_reaches_topic_step (C : collaborators) sel input videoId docs md D m :
  extractTimeRange input D = None ->
  exec false Pat.nthMinute input = Some m ->
  parseInt (group m 1) = 0 ->
  with_docs C sel input videoId docs md D =
  topic_query C input videoId
    (sentiment_query C input docs (metadata_query C input md (whole_video C input docs))).
Proof.
  intros Hrange Hm H0.
  unfold with_docs, time_range_query, timestamp_query, extractMinuteOrTimestamp.
  rewrite Hrange, Hm, H0. reflexivity.
Qed.

Lemma C10_minute_zero_selects_nothing_witness :
  extractMinuteOrTimestamp "what happens in the 0th minute" = Some (RefMinute 0) /\
  timestamp_segment [chunk "hello"] (RefMinute 0) = [] /\
  timestamp_query one_chunk_store "what happens in the 0th minute" [chunk "hello"]
    (ret "later") = ret "later".
Proof.
  apply (C10_minute_zero_selects_nothing one_chunk_store
           "what happens in the 0th minute" [chunk "hello"]
           [Some "0th minute"; Some "0"] (ret "later")); reflexivity.
Defined.

(** ** Topic phrases in the router *)

(** The window pattern [/about (W)/i] of the time-range extractor matches at
    "about " followed by a character that is not white space. *)
Lemma aboutX_matches_here x rest :
  Char.is_space x = false ->
  match_here true Pat.aboutX ("about " ++ String x rest) <> None.
Proof.
  intros Hx. unfold match_here, Pat.aboutX.
  rewrite run_Lit_app, run_Grp.
  unfold Pat.words, Plus, Pat.nonspace.
  rewrite !run_Cat, run_Cls, Hx. cbn [negb].
  rewrite run_Star. apply star_loop_accepts.
  rewrite run_Star. apply star_loop_accepts.
  discriminate.
Qed.

(** Every utterance with "about X", X starting with a character that is not
    white space, has a time range: the last pattern family of
    [extractTimeRange] matches it when no earlier one does. *)
Lemma about_phrase_has_time_range pre x rest D :
  Char.is_space x = false ->
  extractTimeRange (pre ++ "about " ++ String x rest) D <> None.
Proof.
  intros Hx.
  pose proof (exec_found true Pat.aboutX pre _ (aboutX_matches_here x rest Hx)) as Habout.
  unfold extractTimeRange.
  destruct (first_match (exec true Pat.fromTo _) _ _).
  { destruct (truthy_group c 3 && truthy_group c 4); discriminate. }
  destruct (exec false Pat.firstN _); [discriminate|].
  destruct (exec false Pat.lastN _); [discriminate|].
  destruct (exec false Pat.afterX _); [discriminate|].
  destruct (exec false Pat.beforeX _); [discriminate|].
  destruct (exec true Pat.aroundX _); [discriminate|].
  cbn [first_match].
  destruct (exec true Pat.aboutX _); [discriminate | congruence].
Qed.

Lemma pageContents_chunks (l : list Document) :
  pageContents (map Some l) = Ok (map pageContent l).
Proof. induction l as [|d l IH]; simpl; [reflexivity | now rewrite IH]. Qed.

(** An analysis of chunks logs the analyzer call first. *)
Lemma answer_from_logs C (l : list Document) input t :
  exists rest,
    fst (answer_from C (map Some l) input t) =
    (t ++ Invoke AnalyzerLLM (AnalyzePrompt input (join_lines (map pageContent l))) :: rest)%list.
Proof.
  unfold answer_from, analyzeTranscriptSegment, summarizeAnalyzerResult.
  rewrite pageContents_chunks.
  unfold bind, llm_invoke, call, ret.
  destruct (invoke C AnalyzerLLM _).
  - eexists. cbn [fst]. rewrite <- app_assoc. reflexivity.
  - eexists. reflexivity.
Qed.




(** With the selector of the spec bound to the identifier the range branch
    calls, the same utterance is still answered from the chunks of the range
    and the store is not asked for the topic. *)
Lemma about_phrase_with_selector_bound :
  outcome (agent_in_scope one_chunk_store (Some (selectByRange 10800)) ABOUT_CATS) =
  ([Search "" 40 (Some "abc");
    Invoke AnalyzerLLM (AnalyzePrompt ABOUT_CATS "hello");
    Invoke SummarizerLLM (SummarizePrompt ABOUT_CATS (PlainAnswer "answer"))],
   Ok "answer").
Proof. reflexivity. Qed.

(** The selector of the spec on no chunks. *)
Lemma selectByRange_on_no_chunks D from to : selectByRange D [] from to = [].
Proof.
  unfold selectByRange, slice. cbn [existsb List.length].
  rewrite skipn_nil, firstn_nil. reflexivity.
Qed.

(** * Further properties *)

(** ** Inputs that lack what a pattern needs *)

(** A property of code units checked on all 256 of them. *)
Lemma forall_ascii (P : ascii -> bool) :
  forallb P all_ascii = true -> forall a, P a = true.
Proof. intros H a. exact (proj1 (forallb_forall P all_ascii) H a (in_all_ascii a)). Qed.

(** [exec ci r s = None] for a pattern [r] that must take the character [c],
    in either case, and an input [s] made of literals without [c] and blocks
    of digits. *)
Ltac lacks c :=
  apply (exec_lacks _ (Char.eqb_flag true c));
  [ vm_compute; reflexivity
  | rewrite ?all_chars_app;
    repeat (apply andb_true_intro; split);
    first [ reflexivity
          | eapply all_chars_subclass; [|eassumption]; vm_compute; reflexivity ] ].

(** The same for a pattern that must take a digit and an input without
    digits. *)
Ltac lacks_digit :=
  apply (exec_lacks _ Char.is_digit); [vm_compute; reflexivity | assumption].

Ltac absent r tac :=
  match goal with
  | |- context [exec ?ci r ?s] =>
      replace (exec ci r s) with (@None captures) by (symmetry; tac)
  end.

Lemma is_digit_to_lower a : Char.is_digit (Char.to_lower a) = Char.is_digit a.
Proof.
  apply Bool.eqb_prop.
  revert a. apply forall_ascii. vm_compute. reflexivity.
Qed.

Lemma toLowerCase_keeps_digits s :
  all_chars (outside Char.is_digit) (toLowerCase s) = all_chars (outside Char.is_digit) s.
Proof.
  induction s as [|a s IH]; simpl; [reflexivity|].
  unfold outside at 1 3. now rewrite is_digit_to_lower, IH.
Qed.

(** X1. A text without any digit parses to the value of the first literal
    phrase it holds (half an hour, quarter, midway or middle), and to 0
    when it holds none: no numeric pattern can match it. *)
Theorem parse_without_digits (str : string) (D : Z) :
  all_chars (outside Char.is_digit) str = true ->
  parseTimeString str D =
  if test false Pat.halfAnHour (toLowerCase str) then 1800
  else if test false Pat.quarter (toLowerCase str) then 900
  else if test false Pat.midway (toLowerCase str) then D / 2
  else 0.
Proof.
  intros H. rewrite <- toLowerCase_keeps_digits in H.
  unfold parseTimeString. generalize dependent (toLowerCase str). intros low H.
  absent Pat.nthMinute lacks_digit. absent Pat.firstN lacks_digit.
  absent Pat.lastN lacks_digit. absent Pat.afterN lacks_digit.
  absent Pat.beforeN lacks_digit. absent Pat.hours lacks_digit.
  absent Pat.minutes lacks_digit. absent Pat.seconds lacks_digit.
  absent Pat.colon lacks_digit.
  reflexivity.
Qed.

Lemma parse_without_digits_witness :
  parseTimeString "around the middle of the talk" 600 = 300.
Proof. apply (parse_without_digits "around the middle of the talk" 600). reflexivity. Defined.

Lemma parse_digits_only (ds : string) (D : Z) :
  all_chars Char.is_digit ds = true -> parseTimeString ds D = 0.
Proof.
  intros Hds. unfold parseTimeString, test. rewrite (toLowerCase_digits ds Hds).
  absent Pat.nthMinute ltac:(lacks "m"%char). absent Pat.firstN ltac:(lacks "f"%char).
  absent Pat.lastN ltac:(lacks "l"%char). absent Pat.afterN ltac:(lacks "a"%char).
  absent Pat.beforeN ltac:(lacks "b"%char). absent Pat.hours ltac:(lacks "h"%char).
  absent Pat.minutes ltac:(lacks "m"%char). absent Pat.seconds ltac:(lacks "s"%char).
  absent Pat.colon ltac:(lacks ":"%char). absent Pat.halfAnHour ltac:(lacks "h"%char).
  absent Pat.quarter ltac:(lacks "q"%char). absent Pat.midway ltac:(lacks "m"%char).
  reflexivity.
Qed.

(** X2. A string of digits alone, a number without a unit, parses to 0
    seconds, whatever the duration. *)
Theorem parse_bare_number (ds : string) (D : Z) :
  all_chars Char.is_digit ds = true -> parseTimeString ds D = 0.
Proof. exact (parse_digits_only ds D). Qed.

Lemma parse_bare_number_witness : parseTimeString "90" 10800 = 0.
Proof. apply (parse_bare_number "90" 10800). reflexivity. Defined.



(** X4. An utterance without a colon holds no video URL: the agent sends it
    to the summarizer model as it is, queries no store and triggers no
    scrape, and returns or throws what that one call does. *)
Theorem agent_without_colon (C : collaborators) (input : string) :
  all_chars (outside (Ascii.eqb ":")) input = true ->
  outcome (agent C input) =
  ([Invoke SummarizerLLM (Raw input)], invoke C SummarizerLLM (Raw input)).
Proof.
  intros H. unfold outcome, agent, agent_in_scope, extractYoutubeUrl.
  replace (exec false Pat.youtubeUrl input) with (@None captures); [reflexivity|].
  symmetry. apply (exec_lacks _ (Ascii.eqb ":")); [vm_compute; reflexivity | exact H].
Qed.

Lemma agent_without_colon_witness :
  outcome (agent one_chunk_store "hello, who are you?") =
  ([Invoke SummarizerLLM (Raw "hello, who are you?")], Ok "answer").
Proof. apply (agent_without_colon one_chunk_store "hello, who are you?"). reflexivity. Defined.

(** ** Ranges of the phrases with a number *)

Section RangePhrases.

Variable ds : string.
Hypothesis ds_nonempty : ds <> EmptyString.
Hypothesis ds_digits : all_chars Char.is_digit ds = true.
Variable D : Z.

Lemma lastN_in_last_minutes :
  exists whole,
    exec false Pat.lastN ("last " ++ ds ++ " minutes")
    = Some [Some whole; Some ds; Some "minute"].
Proof. matches_after_literal. Qed.

Lemma range_last_minutes :
  extractTimeRange ("last " ++ ds ++ " minutes") D
  = Some {| start := D - parseInt ds * 60; end_ := D |}.
Proof.
  unfold extractTimeRange.
  absent Pat.fromTo ltac:(lacks "f"%char). absent Pat.betweenAnd ltac:(lacks "b"%char).
  absent Pat.minutesTo ltac:(lacks "o"%char). absent Pat.firstN ltac:(lacks "f"%char).
  destruct lastN_in_last_minutes as [w ->]. reflexivity.
Qed.

Lemma range_last_hours :
  extractTimeRange ("last " ++ ds ++ " hours") D
  = Some {| start := D - parseInt ds * 3600; end_ := D |}.
Proof.
  unfold extractTimeRange.
  absent Pat.fromTo ltac:(lacks "f"%char). absent Pat.betweenAnd ltac:(lacks "b"%char).
  absent Pat.minutesTo ltac:(lacks "m"%char). absent Pat.firstN ltac:(lacks "f"%char).
  destruct (lastN_in_last_hours ds ds_nonempty ds_digits) as [w ->]. reflexivity.
Qed.

Lemma range_last_seconds :
  extractTimeRange ("last " ++ ds ++ " seconds") D
  = Some {| start := D - parseInt ds; end_ := D |}.
Proof.
  unfold extractTimeRange.
  absent Pat.fromTo ltac:(lacks "f"%char). absent Pat.betweenAnd ltac:(lacks "b"%char).
  absent Pat.minutesTo ltac:(lacks "m"%char). absent Pat.firstN ltac:(lacks "f"%char).
  destruct (lastN_in_last_seconds ds ds_nonempty ds_digits) as [w ->]. reflexivity.
Qed.

Lemma range_first_hours :
  extractTimeRange ("first " ++ ds ++ " hours") D
  = Some {| start := 0; end_ := parseInt ds * 3600 |}.
Proof.
  unfold extractTimeRange.
  absent Pat.fromTo ltac:(lacks "m"%char). absent Pat.betweenAnd ltac:(lacks "b"%char).
  absent Pat.minutesTo ltac:(lacks "m"%char).
  destruct (firstN_in_first_hours ds ds_nonempty ds_digits) as [w ->]. reflexivity.
Qed.

Lemma range_first_seconds :
  extractTimeRange ("first " ++ ds ++ " seconds") D
  = Some {| start := 0; end_ := parseInt ds |}.
Proof.
  unfold extractTimeRange.
  absent Pat.fromTo ltac:(lacks "m"%char). absent Pat.betweenAnd ltac:(lacks "b"%char).
  absent Pat.minutesTo ltac:(lacks "m"%char).
  destruct (firstN_in_first_seconds ds ds_nonempty ds_digits) as [w ->]. reflexivity.
Qed.

End RangePhrases.



Lemma group_plus_greedy_end ci i p k x ds c :
  ds <> EmptyString -> all_chars p ds = true ->
  k EmptyString (set_cap i ds c) = Some x ->
  run ci (Grp i (Plus (Cls p))) ds c k = Some x.
Proof.
  intros Hne Hds Hk.
  pose proof (group_plus_greedy ci i p k x ds EmptyString c Hne Hds eq_refl Hk) as H.
  now rewrite append_nil_r in H.
Qed.

(** Two digits, as [\d{2}] takes them. *)
Lemma two_digits mm :
  String.length mm = 2%nat -> all_chars Char.is_digit mm = true ->
  exists a b, mm = String a (String b EmptyString)
              /\ Char.is_digit a = true /\ Char.is_digit b = true.
Proof.
  destruct mm as [|a [|b [|c mm]]]; simpl; try discriminate.
  intros _ H. apply andb_true_iff in H. destruct H as [Ha H].
  apply andb_true_iff in H. destruct H as [Hb _]. eauto.
Qed.

Section MinutesTo.

Variables ms ns : string.
Hypothesis ms_nonempty : ms <> EmptyString.
Hypothesis ms_digits : all_chars Char.is_digit ms = true.
Hypothesis ns_nonempty : ns <> EmptyString.
Hypothesis ns_digits : all_chars Char.is_digit ns = true.

Lemma minutesTo_in_phrase :
  exists whole,
    exec true Pat.minutesTo ("minutes " ++ ms ++ " to " ++ ns)
    = Some [Some whole; Some ms; Some ns].
Proof.
  eexists. apply exec_here. unfold match_here, Pat.minutesTo.
  change ("minutes " ++ ms ++ " to " ++ ns)
    with ("minute" ++ String "s" (String " " (ms ++ " to " ++ ns))).
  rewrite run_Lit_app, run_Cat. unfold Opt. rewrite run_Alt.
  rewrite run_Chr. change (Char.eqb_flag true "s" "s") with true. cbv iota beta.
  rewrite run_Cat, run_Chr. change (Char.eqb_flag true " " " ") with true.
  cbv iota beta. rewrite run_Cat. unfold Pat.d.
  erewrite group_plus_greedy; [reflexivity | assumption | assumption | reflexivity |].
  cbv beta. rewrite run_Lit_app.
  apply group_plus_greedy_end; [assumption | assumption | reflexivity].
Qed.

Lemma range_minutes_to D :
  extractTimeRange ("minutes " ++ ms ++ " to " ++ ns) D
  = Some {| start := 0; end_ := 0 |}.
Proof.
  unfold extractTimeRange.
  absent Pat.fromTo ltac:(lacks "f"%char). absent Pat.betweenAnd ltac:(lacks "b"%char).
  destruct minutesTo_in_phrase as [w ->].
  cbn [first_match truthy_group group cap nth andb].
  now rewrite !parse_digits_only.
Qed.

End MinutesTo.

(** X7. For every pair of numbers M and N and every duration, the range of
    "minutes M to N" is from 0 to 0: the pattern has two groups, so the
    branch that multiplies the minutes by 60 is not taken, and the time
    parser reads a number without a unit as 0. *)
Theorem range_of_minutes_to (M N : nat) (D : Z) :
  extractTimeRange ("minutes " ++ decimal M ++ " to " ++ decimal N) D
  = Some {| start := 0; end_ := 0 |}.
Proof.
  destruct (numeral_decimal M) as [HM1 HM2]. destruct (numeral_decimal N) as [HN1 HN2].
  now apply range_minutes_to.
Qed.

(** ** Colon times *)

Section ColonTimes.

Variables hs mm ss : string.
Hypothesis hs_nonempty : hs <> EmptyString.
Hypothesis hs_digits : all_chars Char.is_digit hs = true.
Hypothesis mm_two : String.length mm = 2%nat.
Hypothesis mm_digits : all_chars Char.is_digit mm = true.
Hypothesis ss_two : String.length ss = 2%nat.
Hypothesis ss_digits : all_chars Char.is_digit ss = true.

Lemma atTime_in_phrase :
  exists whole,
    exec false Pat.atTime ("at " ++ hs ++ ":" ++ mm) = Some [Some whole; Some hs; Some mm].
Proof.
  destruct (two_digits mm mm_two mm_digits) as (a & b & -> & Ha & Hb).
  eexists. apply exec_here. unfold match_here, Pat.atTime.
  rewrite run_Lit_app, run_Cat.
  apply group_plus_greedy; [assumption | assumption | reflexivity |].
  cbn [append]. rewrite run_Cat, run_Chr.
  change (Char.eqb_flag false ":" ":") with true. cbv iota.
  rewrite run_Grp. unfold Twice, Pat.d. rewrite run_Cat, run_Cls, Ha, run_Cls, Hb.
  reflexivity.
Qed.

Lemma colon_in_hours_minutes :
  exists whole,
    exec false Pat.colon (hs ++ ":" ++ mm) = Some [Some whole; Some hs; Some mm].
Proof.
  destruct (two_digits mm mm_two mm_digits) as (a & b & -> & Ha & Hb).
  eexists. apply exec_here. unfold match_here, Pat.colon.
  rewrite run_Cat.
  apply group_plus_greedy; [assumption | assumption | reflexivity |].
  cbn [append]. rewrite run_Cat, run_Chr.
  change (Char.eqb_flag false ":" ":") with true. cbv iota.
  rewrite run_Cat, run_Grp. unfold Twice, Pat.d. rewrite run_Cat, run_Cls, Ha, run_Cls, Hb.
  reflexivity.
Qed.

Lemma colon_in_hours_minutes_seconds :
  exists whole,
    exec false Pat.colon (hs ++ ":" ++ mm ++ ":" ++ ss)
    = Some [Some whole; Some hs; Some mm; Some ss].
Proof.
  destruct (two_digits mm mm_two mm_digits) as (a & b & -> & Ha & Hb).
  destruct (two_digits ss ss_two ss_digits) as (c & d & -> & Hc & Hd).
  eexists. apply exec_here. unfold match_here, Pat.colon.
  rewrite run_Cat.
  apply group_plus_greedy; [assumption | assumption | reflexivity |].
  cbn [append]. rewrite run_Cat, run_Chr.
  change (Char.eqb_flag false ":" ":") with true. cbv iota.
  rewrite run_Cat, run_Grp. unfold Twice, Pat.d. rewrite run_Cat, run_Cls, Ha, run_Cls, Hb.
  unfold Opt. rewrite run_Alt, run_Cat, run_Chr.
  change (Char.eqb_flag false ":" ":") with true. cbv iota.
  rewrite run_Grp, run_Cat, run_Cls, Hc, run_Cls, Hd.
  reflexivity.
Qed.

(** The parser on a text of digits and colons: only the colon pattern can
    match. *)
Ltac colon_only :=
  unfold parseTimeString, test;
  rewrite !toLowerCase_app;
  rewrite ?(toLowerCase_digits hs), ?(toLowerCase_digits mm), ?(toLowerCase_digits ss)
    by assumption;
  change (toLowerCase ":") with ":";
  absent Pat.nthMinute ltac:(lacks "m"%char); absent Pat.firstN ltac:(lacks "f"%char);
  absent Pat.lastN ltac:(lacks "l"%char); absent Pat.afterN ltac:(lacks "a"%char);
  absent Pat.beforeN ltac:(lacks "b"%char); absent Pat.hours ltac:(lacks "h"%char);
  absent Pat.minutes ltac:(lacks "m"%char); absent Pat.seconds ltac:(lacks "s"%char);
  absent Pat.halfAnHour ltac:(lacks "h"%char); absent Pat.quarter ltac:(lacks "q"%char);
  absent Pat.midway ltac:(lacks "m"%char).

Lemma parse_hours_minutes D :
  parseTimeString (hs ++ ":" ++ mm) D = parseInt hs * 3600 + parseInt mm * 60 + 0.
Proof. colon_only. destruct colon_in_hours_minutes as [w ->]. reflexivity. Qed.

Lemma parse_hours_minutes_seconds D :
  parseTimeString (hs ++ ":" ++ mm ++ ":" ++ ss) D
  = parseInt hs * 3600 + parseInt mm * 60 + parseInt ss.
Proof.
  colon_only. destruct colon_in_hours_minutes_seconds as [w ->].
  destruct (two_digits ss ss_two ss_digits) as (c & d & -> & _ & _).
  reflexivity.
Qed.

Lemma timestamp_at :
  extractMinuteOrTimestamp ("at " ++ hs ++ ":" ++ mm)
  = Some (RefSeconds (parseInt hs * 60 + parseInt mm)).
Proof.
  unfold extractMinuteOrTimestamp.
  absent Pat.nthMinute ltac:(lacks "m"%char).
  destruct atTime_in_phrase as [w ->]. reflexivity.
Qed.

End ColonTimes.





(** ** URLs and video identifiers *)

Lemma append_cancel_r (s t u : string) : s ++ u = t ++ u -> s = t.
Proof.
  revert t. induction s as [|a s IH]; intros [|b t] H; simpl in H.
  - reflexivity.
  - apply (f_equal String.length) in H. simpl in H. rewrite length_append in H. lia.
  - apply (f_equal String.length) in H. simpl in H. rewrite length_append in H. lia.
  - injection H as -> H. now rewrite (IH t H).
Qed.

(** A literal at the head of a case-sensitive pattern is at the head of the
    input. *)
Lemma run_Lit_inv l r s c k x :
  run false (Cat (Lit l) r) s c k = Some x ->
  exists s', s = l ++ s' /\ run false r s' c k = Some x.
Proof.
  revert s. induction l as [|a l IH]; intros s H.
  - exists s. split; [reflexivity | exact H].
  - rewrite run_Cat in H. cbn [Lit] in H. rewrite run_Cat in H.
    destruct s as [|b s]; [discriminate|]. rewrite run_Chr in H.
    destruct (Char.eqb_flag false a b) eqn:Hab; [|discriminate].
    apply Ascii.eqb_eq in Hab. subst b.
    rewrite <- run_Cat in H. apply IH in H. destruct H as (s' & -> & H).
    exists s'. split; [reflexivity | exact H].
Qed.

(** X10. The URL [extractYoutubeUrl] returns is a part of the utterance that
    starts with "http" and holds no white space. *)
Theorem url_is_a_word_of_the_text (text url : string) :
  extractYoutubeUrl text = Some url ->
  exists pre rest post,
    text = pre ++ url ++ post /\ url = "http" ++ rest /\
    all_chars not_space url = true.
Proof.
  unfold extractYoutubeUrl.
  destruct (exec false Pat.youtubeUrl text) as [m|] eqn:Hm; [|discriminate].
  intros Hurl. apply exec_at in Hm. destruct Hm as (pre & t & -> & Hm).
  unfold match_here, Pat.youtubeUrl in Hm. rewrite run_Grp in Hm.
  apply run_Lit_inv in Hm. destruct Hm as (s' & -> & Hm).
  apply (run_takes false not_space) in Hm.
  destruct Hm as (rest & post & c1 & -> & Hm & Hwithin & _).
  assert (Em : m = set_cap 0 (consumed ("http" ++ rest ++ post) post)
                     (set_cap 1 (consumed ("http" ++ rest ++ post) post) c1))
    by congruence.
  rewrite Em, cap_set_other, cap_set_same in Hurl by discriminate.
  rewrite <- append_assoc, consumed_app in Hurl. injection Hurl as <-.
  exists pre, rest, post. split; [reflexivity|]. split; [reflexivity|].
  change (all_chars not_space ("http" ++ rest) = true). rewrite all_chars_app. rewrite Hwithin by (vm_compute; reflexivity). reflexivity.
Qed.

Lemma url_is_a_word_of_the_text_witness :
  exists pre rest post,
    "see https://youtu.be/abc now" = pre ++ "https://youtu.be/abc" ++ post /\
    "https://youtu.be/abc" = "http" ++ rest /\
    all_chars not_space "https://youtu.be/abc" = true.
Proof.
  apply (url_is_a_word_of_the_text "see https://youtu.be/abc now" "https://youtu.be/abc").
  reflexivity.
Defined.

(** X11. The identifier [getVideoIdFromUrl] returns is a non-empty part of
    the URL that holds no [&], [?], [#] nor line feed: it stops before the
    other parameters of the URL. *)
Theorem video_id_is_clean (url id : string) :
  getVideoIdFromUrl url = Some id ->
  id <> EmptyString /\ all_chars id_char id = true /\
  exists pre post, url = pre ++ id ++ post.
Proof.
  unfold getVideoIdFromUrl.
  destruct (exec false Pat.videoId url) as [m|] eqn:Hm; [|discriminate].
  intros Hid. apply exec_at in Hm. destruct Hm as (pre & t & -> & Hm).
  unfold match_here, Pat.videoId in Hm. rewrite run_Cat in Hm.
  apply (run_takes false id_char) in Hm.
  destruct Hm as (pre1 & s1 & c1 & -> & Hm & _).
  rewrite run_Grp in Hm. apply (run_takes false id_char) in Hm.
  destruct Hm as (taken_id & post & c2 & -> & Hm & Hwithin & Hmust).
  assert (Em : m = set_cap 0 (consumed (pre1 ++ taken_id ++ post) post)
                     (set_cap 1 (consumed (taken_id ++ post) post) c2))
    by congruence.
  rewrite Em, cap_set_other, cap_set_same in Hid by discriminate.
  rewrite consumed_app in Hid. injection Hid as <-.
  split; [|split].
  - intros ->. specialize (Hmust eq_refl). discriminate.
  - apply Hwithin. vm_compute. reflexivity.
  - exists (pre ++ pre1), post. now rewrite append_assoc.
Qed.

Lemma video_id_is_clean_witness :
  "abc" <> EmptyString /\ all_chars id_char "abc" = true /\
  exists pre post, "https://www.youtube.com/watch?v=abc&t=42" = pre ++ "abc" ++ post.
Proof.
  apply (video_id_is_clean "https://www.youtube.com/watch?v=abc&t=42" "abc").
  reflexivity.
Defined.

(** ** More of the router *)

Section RouterSteps.

Variable C : collaborators.

(** The outcome of the scrape step, after the log [t]. *)
Lemma trigger_scrape_outcome youtubeUrl t :
  trigger_scrape C youtubeUrl t =
  match triggerYoutubeVideoScrape C youtubeUrl with
  | Ok _ => ((t ++ [Scrape youtubeUrl])%list, Ok SCRAPING)
  | Throw e =>
      ((t ++ [Scrape youtubeUrl; ConsoleError "Failed to trigger scrape:" e])%list,
       Ok SCRAPE_FAILED)
  end.
Proof.
  unfold trigger_scrape, try_catch, bind, call, ret, console_error.
  destruct (triggerYoutubeVideoScrape C youtubeUrl) as [[]|e]; [reflexivity|].
  now rewrite <- app_assoc.
Qed.

(** With no time range and no segment from the timestamp step, the router
    is at its topic step. *)
Lemma with_docs_at_topic_step sel input videoId docs md D :
  extractTimeRange input D = None ->
  (forall timeRef, extractMinuteOrTimestamp input = Some timeRef ->
                   timestamp_segment docs timeRef = []) ->
  with_docs C sel input videoId docs md D =
  topic_query C input videoId
    (sentiment_query C input docs (metadata_query C input md (whole_video C input docs))).
Proof.
  intros Hrange Hstamp. unfold with_docs, time_range_query, timestamp_query.
  rewrite Hrange.
  destruct (extractMinuteOrTimestamp input) as [r|]; [|reflexivity].
  cbv zeta. now rewrite (Hstamp r eq_refl).
Qed.

End RouterSteps.

(** X12. When the store holds no chunk for the video, the agent triggers the
    scrape of the URL and returns the message of that step: the waiting
    message when the trigger succeeds, the failure message when it throws.
    It does not throw and calls no model. *)
Theorem agent_without_chunks (C : collaborators) input youtubeUrl id :
  extractYoutubeUrl input = Some youtubeUrl ->
  getVideoIdFromUrl youtubeUrl = Some id ->
  similaritySearch C "" 40 (Some id) = Ok [] ->
  outcome (agent C input) =
  match triggerYoutubeVideoScrape C youtubeUrl with
  | Ok _ => ([Search "" 40 (Some id); Scrape youtubeUrl], Ok SCRAPING)
  | Throw e =>
      ([Search "" 40 (Some id); Scrape youtubeUrl;
        ConsoleError "Failed to trigger scrape:" e], Ok SCRAPE_FAILED)
  end.
Proof.
  intros Hurl Hid Hsearch.
  pose proof (video_id_nonempty _ _ Hid) as Hne.
  unfold outcome, agent, agent_in_scope. rewrite Hurl, Hid.
  destruct id as [|a id]; [congruence|].
  unfold bind at 1, retrieve, try_catch, bind, vector_search, call, ret.
  rewrite Hsearch. cbn [app nonempty fst snd video_context].
  rewrite trigger_scrape_outcome.
  destruct (triggerYoutubeVideoScrape C youtubeUrl); reflexivity.
Qed.

Lemma agent_without_chunks_witness :
  outcome (agent empty_store "https://youtu.be/abc what is this about?") =
  ([Search "" 40 (Some "abc"); Scrape "https://youtu.be/abc"], Ok SCRAPING).
Proof.
  apply (agent_without_chunks empty_store "https://youtu.be/abc what is this about?"
           "https://youtu.be/abc" "abc"); reflexivity.
Defined.

(** X13. When the URL of the utterance holds no video identifier, the agent
    does not query the store: it goes to the scrape step at once. *)
Theorem agent_without_video_id (C : collaborators) input youtubeUrl :
  extractYoutubeUrl input = Some youtubeUrl ->
  getVideoIdFromUrl youtubeUrl = None ->
  outcome (agent C input) =
  match triggerYoutubeVideoScrape C youtubeUrl with
  | Ok _ => ([Scrape youtubeUrl], Ok SCRAPING)
  | Throw e =>
      ([Scrape youtubeUrl; ConsoleError "Failed to trigger scrape:" e], Ok SCRAPE_FAILED)
  end.
Proof.
  intros Hurl Hid.
  unfold outcome, agent, agent_in_scope. rewrite Hurl, Hid.
  unfold bind at 1, ret. cbn [nonempty].
  rewrite trigger_scrape_outcome.
  destruct (triggerYoutubeVideoScrape C youtubeUrl); reflexivity.
Qed.

Lemma agent_without_video_id_witness :
  outcome (agent one_chunk_store "https://youtu.be/#intro what is said?") =
  ([Scrape "https://youtu.be/#intro"], Ok SCRAPING).
Proof.
  apply (agent_without_video_id one_chunk_store "https://youtu.be/#intro what is said?"
           "https://youtu.be/#intro"); reflexivity.
Defined.

(** X14. A failure of the topic-filtered retrieval is not caught: when the
    router reaches its topic step with a topic and the store throws on the
    topic query, the agent throws that error, after the two queries and
    without calling a model. *)
Theorem topic_retrieval_failure_propagates (C : collaborators)
  input youtubeUrl id docs topic err :
  extractYoutubeUrl input = Some youtubeUrl ->
  getVideoIdFromUrl youtubeUrl = Some id ->
  similaritySearch C "" 40 (Some id) = Ok docs -> docs <> [] ->
  extractTimeRange input (snd (video_context docs)) = None ->
  (forall timeRef, extractMinuteOrTimestamp input = Some timeRef ->
                   timestamp_segment docs timeRef = []) ->
  extractTopic input = Some topic -> topic <> EmptyString ->
  similaritySearch C topic 4 (Some id) = Throw err ->
  outcome (agent C input) =
  ([Search "" 40 (Some id); Search topic 4 (Some id)], Throw err).
Proof.
  intros Hurl Hid Hsearch Hdocs Hrange Hstamp Htopic Htne Hthrow.
  unfold outcome, agent.
  rewrite (agent_with_chunks C None input youtubeUrl id docs) by assumption.
  rewrite with_docs_at_topic_step by assumption.
  unfold topic_query. rewrite Htopic.
  destruct topic as [|a topic]; [congruence|].
  unfold bind, vector_search, call. rewrite Hthrow. reflexivity.
Qed.

Lemma topic_retrieval_failure_propagates_witness :
  outcome (agent topic_store_down "https://youtu.be/abc the topic cats") =
  ([Search "" 40 (Some "abc"); Search "cats" 4 (Some "abc")],
   Throw (Failure "connection refused")).
Proof.
  apply (topic_retrieval_failure_propagates topic_store_down
           "https://youtu.be/abc the topic cats" "https://youtu.be/abc" "abc"
           [chunk "hello"] "cats" (Failure "connection refused"));
    try reflexivity; discriminate.
Defined.

(** X15. A metadata request on a video whose first chunk carries no metadata
    field is answered with the fixed message: with no time range, no segment
    from the timestamp step, no topic and no sentiment word in the
    utterance, the agent returns that message and calls no model. *)
Theorem metadata_request_without_metadata (C : collaborators)
  input youtubeUrl id docs :
  extractYoutubeUrl input = Some youtubeUrl ->
  getVideoIdFromUrl youtubeUrl = Some id ->
  similaritySearch C "" 40 (Some id) = Ok docs -> docs <> [] ->
  extractTimeRange input (snd (video_context docs)) = None ->
  (forall timeRef, extractMinuteOrTimestamp input = Some timeRef ->
                   timestamp_segment docs timeRef = []) ->
  extractTopic input = None ->
  isSentimentRequest input = false ->
  isMetadataRequest input = true ->
  fst (video_context docs) = [] ->
  outcome (agent C input) = ([Search "" 40 (Some id)], Ok NO_METADATA).
Proof.
  intros Hurl Hid Hsearch Hdocs Hrange Hstamp Htopic Hsent Hmeta Hmd.
  unfold outcome, agent.
  rewrite (agent_with_chunks C None input youtubeUrl id docs) by assumption.
  rewrite with_docs_at_topic_step by assumption.
  unfold topic_query, sentiment_query, metadata_query.
  rewrite Htopic, Hsent, Hmeta, Hmd. reflexivity.
Qed.

Lemma metadata_request_without_metadata_witness :
  outcome (agent bare_store "https://youtu.be/abc how many views does it have?") =
  ([Search "" 40 (Some "abc")], Ok NO_METADATA).
Proof.
  apply (metadata_request_without_metadata bare_store
           "https://youtu.be/abc how many views does it have?" "https://youtu.be/abc"
           "abc" [{| pageContent := "hello"; metadata := Some [] |}]);
    try reflexivity; discriminate.
Defined.

(** X16. When no branch of the router applies (no time range, no segment
    from the timestamp step, no topic, no sentiment word, no metadata word),
    the agent analyzes all the retrieved chunks, in the order the store
    returned them, right after the retrieval. *)
Theorem whole_video_is_the_default (C : collaborators) input youtubeUrl id docs :
  extractYoutubeUrl input = Some youtubeUrl ->
  getVideoIdFromUrl youtubeUrl = Some id ->
  similaritySearch C "" 40 (Some id) = Ok docs -> docs <> [] ->
  extractTimeRange input (snd (video_context docs)) = None ->
  (forall timeRef, extractMinuteOrTimestamp input = Some timeRef ->
                   timestamp_segment docs timeRef = []) ->
  extractTopic input = None ->
  isSentimentRequest input = false ->
  isMetadataRequest input = false ->
  agent C input [] = answer_from C (map Some docs) input [Search "" 40 (Some id)] /\
  exists rest,
    fst (outcome (agent C input)) =
    Search "" 40 (Some id)
    :: Invoke AnalyzerLLM (AnalyzePrompt input (join_lines (map pageContent docs)))
    :: rest.
Proof.
  intros Hurl Hid Hsearch Hdocs Hrange Hstamp Htopic Hsent Hmeta.
  assert (Hrun : agent C input [] =
                 answer_from C (map Some docs) input [Search "" 40 (Some id)]).
  { unfold agent.
    rewrite (agent_with_chunks C None input youtubeUrl id docs) by assumption.
    rewrite with_docs_at_topic_step by assumption.
    unfold topic_query, sentiment_query, metadata_query, whole_video.
    now rewrite Htopic, Hsent, Hmeta. }
  split; [exact Hrun|].
  unfold outcome. rewrite Hrun.
  destruct (answer_from_logs C docs input [Search "" 40 (Some id)]) as [rest ->].
  exists rest. reflexivity.
Qed.

Lemma whole_video_is_the_default_witness :
  agent one_chunk_store "https://youtu.be/abc summarize this" [] =
    answer_from one_chunk_store [Some (chunk "hello")]
      "https://youtu.be/abc summarize this" [Search "" 40 (Some "abc")] /\
  exists rest,
    fst (outcome (agent one_chunk_store "https://youtu.be/abc summarize this")) =
    Search "" 40 (Some "abc")
    :: Invoke AnalyzerLLM (AnalyzePrompt "https://youtu.be/abc summarize this" "hello")
    :: rest.
Proof.
  apply (whole_video_is_the_default one_chunk_store
           "https://youtu.be/abc summarize this" "https://youtu.be/abc" "abc"
           [chunk "hello"]); try reflexivity; discriminate.
Defined.

(** X17. An analysis of a segment that holds [undefined] throws a TypeError
    before any model is called: nothing is added to the log. *)
Theorem analysis_of_undefined_throws (C : collaborators)
  (segment : list element) (userQuery : string) (t : trace) :
  In None segment ->
  exists message,
    analyzeTranscriptSegment C segment userQuery t = (t, Throw (TypeError message)) /\
    answer_from C segment userQuery t = (t, Throw (TypeError message)).
Proof.
  intros Hin.
  assert (H : exists message, pageContents segment = Throw (TypeError message)).
  { induction segment as [|[d|] segment IH]; simpl.
    - destruct Hin.
    - destruct Hin as [Hd|Hin]; [discriminate|].
      destruct (IH Hin) as [msg ->]. eauto.
    - eauto. }
  destruct H as [msg H]. exists msg.
  unfold answer_from, bind, analyzeTranscriptSegment. rewrite H. split; reflexivity.
Qed.

Lemma analysis_of_undefined_throws_witness :
  exists message,
    analyzeTranscriptSegment one_chunk_store [None] "what happens at 10:00" []
    = ([], Throw (TypeError message)) /\
    answer_from one_chunk_store [None] "what happens at 10:00" []
    = ([], Throw (TypeError message)).
Proof.
  apply (analysis_of_undefined_throws one_chunk_store [None] "what happens at 10:00" []).
  left. reflexivity.
Defined.

(** ** More of the segment selectors *)

Lemma firstn_plus {A : Type} (l : list A) (n m : nat) :
  firstn (n + m) l = (firstn n l ++ firstn m (skipn n l))%list.
Proof.
  revert l. induction n as [|n IH]; intros [|x l]; simpl; auto.
  - now rewrite firstn_nil.
  - now rewrite IH.
Qed.

(** Consecutive windows of [c] elements make up a prefix. *)
Lemma windows_concat {A : Type} (l : list A) (c k : nat) :
  concat (map (fun i => firstn c (skipn (i * c) l)) (seq 0 k)) = firstn (k * c) l.
Proof.
  induction k as [|k IH]; [reflexivity|].
  rewrite seq_S, map_app, concat_app, IH. cbn [map concat plus].
  rewrite List.app_nil_r.
  replace (S k * c)%nat with (k * c + c)%nat by lia.
  now rewrite firstn_plus.
Qed.

(** [slice] between two indices that are not negative is a window. *)
Lemma slice_window {A : Type} (l : list A) (i c : nat) :
  slice l (Z.of_nat i) (Z.of_nat (i + c)) = firstn c (skipn i l).
Proof.
  unfold slice.
  destruct (Z.of_nat i <? 0) eqn:Hi; [apply Z.ltb_lt in Hi; lia|].
  destruct (Z.of_nat (i + c) <? 0) eqn:Hc; [apply Z.ltb_lt in Hc; lia|].
  destruct (le_lt_dec (List.length l) i) as [Hout|Hin].
  - rewrite (skipn_all2 l) by lia.
    rewrite (skipn_all2 l) by lia. now rewrite !firstn_nil.
  - replace (Z.to_nat (Z.min (Z.of_nat i) (Z.of_nat (List.length l)))) with i by lia.
    destruct (le_lt_dec (i + c) (List.length l)) as [Hfit|Hover].
    + f_equal. lia.
    + rewrite !firstn_all2; [reflexivity | |]; rewrite length_skipn; lia.
Qed.

(** The number of chunks the selectors take for a minute. *)
Lemma ceil_div10_bounds (n : Z) :
  0 <= n -> n <= 10 * ceil_div10 n /\ (1 <= n -> 1 <= ceil_div10 n <= n).
Proof.
  intros Hn. unfold ceil_div10.
  pose proof (Z.div_mod (n + 9) 10 ltac:(lia)) as Hdm.
  pose proof (Z.mod_pos_bound (n + 9) 10 ltac:(lia)) as Hmod.
  lia.
Qed.

Lemma minute_window docs (i : nat) :
  docs <> [] ->
  getTranscriptSegmentByMinute docs (Z.of_nat (S i)) =
  map Some
    (firstn (Z.to_nat (ceil_div10 (Z.of_nat (List.length docs))))
       (skipn (i * Z.to_nat (ceil_div10 (Z.of_nat (List.length docs)))) docs)).
Proof.
  intros Hdocs. unfold getTranscriptSegmentByMinute.
  destruct docs as [|d docs]; [congruence|].
  set (l := d :: docs). set (c := ceil_div10 (Z.of_nat (List.length l))).
  destruct (ceil_div10_bounds (Z.of_nat (List.length l)) ltac:(lia)) as [_ Hc].
  assert (Hc1 : 1 <= c) by (apply Hc; subst l; simpl; lia).
  rewrite <- (slice_window l (i * Z.to_nat c) (Z.to_nat c)).
  f_equal. f_equal; nia.
Qed.

(** X18. The segments of the minutes 1 to 10 are consecutive and make up the
    whole transcript: put one after the other they give all the chunks, in
    their order. *)
Theorem ten_minutes_make_the_transcript (docs : list Document) :
  concat (map (getTranscriptSegmentByMinute docs) [1; 2; 3; 4; 5; 6; 7; 8; 9; 10])
  = map Some docs.
Proof.
  destruct docs as [|d docs]; [reflexivity|].
  set (l := d :: docs).
  change [1; 2; 3; 4; 5; 6; 7; 8; 9; 10]
    with (map (fun i => Z.of_nat (S i)) (seq 0 10)).
  rewrite map_map.
  rewrite (map_ext _ (fun i => map Some
             (firstn (Z.to_nat (ceil_div10 (Z.of_nat (List.length l))))
                (skipn (i * Z.to_nat (ceil_div10 (Z.of_nat (List.length l)))) l))))
    by (intros i; apply minute_window; discriminate).
  rewrite <- (map_map (fun i => firstn _ (skipn (i * _) l)) (map Some)).
  rewrite <- concat_map, windows_concat.
  f_equal. apply firstn_all2.
  destruct (ceil_div10_bounds (Z.of_nat (List.length l)) ltac:(lia)) as [H _]. lia.
Qed.

(** X19. A minute after the tenth selects nothing: the selector returns the
    empty sequence for every minute from 11 on, whatever the chunks. *)
Theorem minute_after_the_tenth (docs : list Document) (minute : Z) :
  11 <= minute -> getTranscriptSegmentByMinute docs minute = [].
Proof.
  intros Hm. destruct docs as [|d docs]; [reflexivity|].
  replace minute with (Z.of_nat (S (Z.to_nat (minute - 1)))) by lia.
  rewrite minute_window by discriminate.
  set (l := d :: docs).
  destruct (ceil_div10_bounds (Z.of_nat (List.length l)) ltac:(lia)) as [H _].
  rewrite skipn_all2; [now rewrite firstn_nil | nia].
Qed.

Lemma minute_after_the_tenth_witness :
  getTranscriptSegmentByMinute [chunk "a"; chunk "b"] 11 = [].
Proof. apply (minute_after_the_tenth [chunk "a"; chunk "b"] 11). lia. Defined.

(** X20. With chunks present, the segment of the last minute is the last
    ceil(n/10) of the n chunks, in their order: it is never empty. *)
Theorem last_minute_is_a_nonempty_suffix (docs : list Document) :
  docs <> [] ->
  let n := List.length docs in
  let c := Z.to_nat (ceil_div10 (Z.of_nat n)) in
  getTranscriptSegmentLastMinute docs = map Some (skipn (n - c) docs) /\
  List.length (getTranscriptSegmentLastMinute docs) = c /\ (1 <= c <= n)%nat.
Proof.
  intros Hdocs n c.
  destruct (ceil_div10_bounds (Z.of_nat n) ltac:(lia)) as [_ Hc].
  assert (Hn : (1 <= n)%nat) by (destruct docs; [congruence | subst n; simpl; lia]).
  specialize (Hc ltac:(lia)).
  assert (Heq : getTranscriptSegmentLastMinute docs = map Some (skipn (n - c) docs)).
  { unfold getTranscriptSegmentLastMinute. destruct docs as [|d docs]; [congruence|].
    fold n. f_equal. unfold slice. fold n.
    destruct (- ceil_div10 (Z.of_nat n) <? 0) eqn:H1; [|apply Z.ltb_ge in H1; lia].
    destruct (Z.of_nat n <? 0) eqn:H2; [apply Z.ltb_lt in H2; lia|].
    replace (Z.to_nat (Z.max (Z.of_nat n + - ceil_div10 (Z.of_nat n)) 0))
      with (n - c)%nat by lia.
    apply firstn_all2. rewrite length_skipn. fold n. lia. }
  split; [exact Heq|]. split; [|lia].
  rewrite Heq, length_map, length_skipn. fold n. lia.
Qed.

Lemma last_minute_is_a_nonempty_suffix_witness :
  getTranscriptSegmentLastMinute [chunk "a"; chunk "b"] = [Some (chunk "b")] /\
  List.length (getTranscriptSegmentLastMinute [chunk "a"; chunk "b"]) = 1%nat /\
  (1 <= 1 <= 2)%nat.
Proof.
  apply (last_minute_is_a_nonempty_suffix [chunk "a"; chunk "b"]). discriminate.
Defined.

(** X21. With chunks present and an instant from 0 up to, and not
    including, the 600 seconds the selector assumes, the selector by seconds
    returns exactly one chunk of the transcript; when some chunk carries
    timing metadata that covers the instant, it is such a chunk. *)
Theorem seconds_in_range_select_one_chunk (docs : list Document) (secs : Z) :
  docs <> [] -> 0 <= secs < 600 ->
  exists d,
    getTranscriptSegmentBySeconds docs secs = [Some d] /\ In d docs /\
    (find (covers secs) docs <> None -> covers secs d = true).
Proof.
  intros Hdocs Hsecs. unfold getTranscriptSegmentBySeconds.
  destruct docs as [|d0 docs]; [congruence|]. set (l := d0 :: docs).
  destruct (find (covers secs) l) as [found|] eqn:Hfind.
  - apply find_some in Hfind. exists found. tauto.
  - set (idx := secs * Z.of_nat (List.length l) / (10 * 60)).
    assert (Hidx : 0 <= idx < Z.of_nat (List.length l)).
    { subst idx. change (10 * 60) with 600. split.
      - apply Z.div_pos; nia.
      - apply Z.div_lt_upper_bound; [lia|]. subst l. simpl List.length. nia. }
    unfold at_index.
    destruct (idx <? 0) eqn:Hneg; [apply Z.ltb_lt in Hneg; lia|].
    destruct (nth_error l (Z.to_nat idx)) as [d|] eqn:Hnth.
    + exists d. repeat split; [eapply nth_error_In; eassumption | congruence].
    + apply nth_error_None in Hnth. lia.
Qed.

Lemma seconds_in_range_select_one_chunk_witness :
  exists d,
    getTranscriptSegmentBySeconds [chunk "a"; chunk "b"] 450 = [Some d] /\
    In d [chunk "a"; chunk "b"] /\
    (find (covers 450) [chunk "a"; chunk "b"] <> None -> covers 450 d = true).
Proof.
  apply (seconds_in_range_select_one_chunk [chunk "a"; chunk "b"] 450);
    [discriminate | lia].
Defined.

(** ** Ingestion *)

Section IngestionFacts.

Variable K : ingest_collaborators.

Lemma derive_transcript_source v raw :
  formatted_transcript v = Some raw ->
  Forall is_warning (fst (derive_transcript K (transcript v) raw)) /\
  text_source K v (snd (derive_transcript K (transcript v) raw)).
Proof.
  intros Hraw. unfold derive_transcript.
  assert (Hwarn : Forall is_warning [Warn WARN_PARSE])
    by (constructor; [eexists; reflexivity | constructor]).
  assert (Hsame : forall w, Forall is_warning w ->
             Forall is_warning (fst (w, transcript v)) /\
             text_source K v (snd (w, transcript v)))
    by (intros w Hw; split; [exact Hw | left; reflexivity]).
  assert (Harray : forall segments,
             (formatted_transcript v = Some (FArray segments) \/
              exists encoded, formatted_transcript v = Some (FString encoded)
                              /\ parse_json K encoded = Some (FArray segments)) ->
             Forall is_warning
               (fst match segment_texts segments with
                    | Some texts => ([], Some (join_spaces texts))
                    | None => ([Warn WARN_PARSE], transcript v)
                    end) /\
             text_source K v
               (snd match segment_texts segments with
                    | Some texts => ([], Some (join_spaces texts))
                    | None => ([Warn WARN_PARSE], transcript v)
                    end)).
  { intros segments Hfrom.
    destruct (segment_texts segments) as [texts|] eqn:Htexts; [|now apply Hsame].
    cbn [fst snd]. split; [constructor|]. right. right. exists segments, texts. auto. }
  destruct raw as [encoded|segments|].
  - destruct (parse_json K encoded) as [[raw'|segments|]|] eqn:Hparse.
    + apply Hsame. constructor.
    + apply Harray. right. eauto.
    + apply Hsame. constructor.
    + now apply Hsame.
  - apply Harray. now left.
  - apply Hsame. constructor.
Qed.

(** What [resolve_transcript] logs and where its text comes from. *)
Lemma resolve_transcript_source v :
  Forall is_warning (fst (resolve_transcript K v)) /\
  text_source K v (snd (resolve_transcript K v)).
Proof.
  unfold resolve_transcript.
  assert (Hstep : forall w t,
             Forall is_warning w -> text_source K v t ->
             Forall is_warning w /\
             text_source K v
               (if blank t
                then match description v with Some d => Some d | None => t end
                else t)).
  { intros w t Hw Ht. split; [exact Hw|].
    destruct (blank t); [|exact Ht].
    destruct (description v) as [d|] eqn:Hd; [|exact Ht].
    right. left. eauto. }
  destruct (blank (transcript v) && truthy_formatted (formatted_transcript v)).
  - destruct (formatted_transcript v) as [raw|] eqn:Hraw.
    + destruct (derive_transcript_source v raw Hraw) as [Hw Ht].
      destruct (derive_transcript K (transcript v) raw) as [w t].
      cbn [fst snd] in *. now apply Hstep.
    + cbn [fst snd]. apply Hstep; [constructor | left; reflexivity].
  - cbn [fst snd]. apply Hstep; [constructor | left; reflexivity].
Qed.

End IngestionFacts.







(** ** Words and phrases found anywhere in the text *)

Lemma run_Lit ci l s c k : run ci (Lit l) (l ++ s) c k = k s c.
Proof.
  induction l as [|a l IH]; [reflexivity|].
  cbn [Lit append]. now rewrite run_Cat, run_Chr, eqb_flag_refl.
Qed.

Lemma run_Alt_l ci r1 r2 s c k :
  run ci r1 s c k <> None -> run ci (Alt r1 r2) s c k <> None.
Proof. rewrite run_Alt. destruct (run ci r1 s c k); simpl; congruence. Qed.

Lemma run_Alt_r ci r1 r2 s c k :
  run ci r2 s c k <> None -> run ci (Alt r1 r2) s c k <> None.
Proof. rewrite run_Alt. destruct (run ci r1 s c k); simpl; congruence. Qed.

Lemma test_found ci r pre t :
  match_here ci r t <> None -> test ci r (pre ++ t) = true.
Proof.
  intros H. unfold test.
  pose proof (exec_found ci r pre t H) as Hx.
  destruct (exec ci r (pre ++ t)); congruence.
Qed.

(** A word of an alternation of literals matches at the head of the input. *)
Ltac word_at_head :=
  unfold match_here;
  repeat first
    [ apply run_Alt_l; rewrite run_Lit; discriminate
    | apply run_Alt_r ];
  rewrite run_Lit; discriminate.

(** X25. The sentiment test and the metadata test look for their words
    anywhere in the text, inside longer words too: a text that holds one of
    the words at any place passes the test. *)
Theorem keyword_anywhere (kw pre post : string) :
  (In kw SENTIMENT_WORDS -> isSentimentRequest (pre ++ kw ++ post) = true) /\
  (In kw METADATA_WORDS -> isMetadataRequest (pre ++ kw ++ post) = true).
Proof.
  split; intros Hkw; simpl in Hkw;
    repeat (destruct Hkw as [<-|Hkw]; [apply test_found; word_at_head|]);
    destruct Hkw.
Qed.

Lemma keyword_anywhere_witness :
  isSentimentRequest ("a mile" ++ "s" ++ "tone" ++ " of the video") = true /\
  isMetadataRequest ("any up" ++ "date" ++ "s on this?") = true.
Proof.
  split.
  - apply (proj1 (keyword_anywhere "tone" "a miles" " of the video")). simpl. tauto.
  - apply (proj2 (keyword_anywhere "date" "any up" "s on this?")). simpl. tauto.
Defined.

Lemma aroundX_matches_here x rest :
  Char.is_space x = false ->
  match_here true Pat.aroundX ("around " ++ String x rest) <> None.
Proof.
  intros Hx. unfold match_here, Pat.aroundX.
  rewrite run_Lit_app, run_Grp.
  unfold Pat.words, Plus, Pat.nonspace.
  rewrite !run_Cat, run_Cls, Hx. cbn [negb].
  rewrite run_Star. apply star_loop_accepts.
  rewrite run_Star. apply star_loop_accepts.
  discriminate.
Qed.

(** The last family of the extractor gives a range as soon as one of its
    three patterns matches, when no earlier family does. *)
Lemma range_from_a_window text D :
  exec true Pat.aroundX text <> None \/ exec true Pat.aboutX text <> None
  \/ exec false Pat.midway text <> None ->
  extractTimeRange text D <> None.
Proof.
  intros H. unfold extractTimeRange.
  destruct (first_match (exec true Pat.fromTo _) _ _).
  { destruct (truthy_group c 3 && truthy_group c 4); discriminate. }
  destruct (exec false Pat.firstN _); [discriminate|].
  destruct (exec false Pat.lastN _); [discriminate|].
  destruct (exec false Pat.afterX _); [discriminate|].
  destruct (exec false Pat.beforeX _); [discriminate|].
  destruct (exec true Pat.aroundX _); [discriminate|].
  destruct (exec true Pat.aboutX _); [discriminate|].
  destruct (exec false Pat.midway _); [discriminate|].
  destruct H as [H|[H|H]]; congruence.
Qed.

(** X26. Every text with a phrase of the last family ("around X", "about
    X", "midway", "middle") has a time range, whatever else it holds and
    whatever the duration: the router never passes the time-range step with
    such a text. *)
Theorem window_phrase_has_a_range (text : string) (D : Z) :
  has_window_phrase text -> extractTimeRange text D <> None.
Proof.
  intros [(pre & x & rest & Hx & [-> | ->]) | (pre & post & [-> | ->])];
    apply range_from_a_window.
  - left. apply exec_found, aroundX_matches_here, Hx.
  - right. left. apply exec_found, aboutX_matches_here, Hx.
  - right. right. apply exec_found. word_at_head.
  - right. right. apply exec_found. word_at_head.
Qed.

Lemma window_phrase_has_a_range_witness :
  extractTimeRange "somewhere in the middle of it" 600 <> None.
Proof.
  apply (window_phrase_has_a_range "somewhere in the middle of it" 600).
  right. exists "somewhere in the ", " of it". right. reflexivity.
Defined.

(** X27. The time parser returns a negative number only through its "last N
    unit" branch: for a duration that is not negative, the result is not
    negative when that pattern does not match the text in lower case, and
    when the "Nth minute" pattern matches it. *)
Theorem parse_is_negative_only_by_last (str : string) (D : Z) :
  0 <= D ->
  exec false Pat.lastN (toLowerCase str) = None
  \/ exec false Pat.nthMinute (toLowerCase str) <> None ->
  0 <= parseTimeString str D.
Proof.
  intros HD [Hlast|Hnth]; [now apply parse_nonneg_without_last|].
  unfold parseTimeString.
  destruct (exec false Pat.nthMinute (toLowerCase str)) as [m|]; [|congruence].
  pose proof (parseInt_nonneg (group m 1)). lia.
Qed.

Lemma parse_is_negative_only_by_last_witness :
  0 <= parseTimeString "after 90 minutes" 600.
Proof.
  apply (parse_is_negative_only_by_last "after 90 minutes" 600); [lia|].
  left. reflexivity.
Defined.

Lemma in_window {A : Type} (x : A) (l : list A) (n k : nat) :
  In x (firstn n (skipn k l)) -> In x l.
Proof.
  intros H.
  rewrite <- (firstn_skipn k l). apply in_or_app. right.
  rewrite <- (firstn_skipn n (skipn k l)). apply in_or_app. now left.
Qed.

(** X28. Whatever the minute, negative or past the end included, the
    selector by minute returns chunks of the transcript only, and at most
    ceil(n/10) of them. *)
Theorem minute_segment_is_bounded (docs : list Document) (minute : Z) :
  (List.length (getTranscriptSegmentByMinute docs minute)
   <= Z.to_nat (ceil_div10 (Z.of_nat (List.length docs))))%nat /\
  forall e, In e (getTranscriptSegmentByMinute docs minute) ->
            exists d, e = Some d /\ In d docs.
Proof.
  unfold getTranscriptSegmentByMinute.
  destruct docs as [|d0 docs]; [split; [simpl; lia | intros e []]|].
  set (l := d0 :: docs). set (c := ceil_div10 (Z.of_nat (List.length l))).
  destruct (ceil_div10_bounds (Z.of_nat (List.length l)) ltac:(lia)) as [_ Hc].
  assert (Hc1 : 1 <= c) by (apply Hc; subst l; simpl; lia).
  split.
  - rewrite length_map. unfold slice.
    rewrite length_firstn.
    destruct ((minute - 1) * c <? 0) eqn:H1;
      destruct ((minute - 1) * c + c <? 0) eqn:H2;
      lia.
  - intros e He. apply in_map_iff in He. destruct He as (d & <- & Hd).
    exists d. split; [reflexivity|].
    unfold slice in Hd. exact (in_window _ _ _ _ Hd).
Qed.

(** ** Ranges of "after" and "before" *)

Lemma consumed_all s : consumed s "" = s.
Proof.
  pose proof (consumed_app s "") as H. now rewrite append_nil_r in H.
Qed.

Section AfterBefore.

Variable ds : string.
Hypothesis ds_nonempty : ds <> EmptyString.
Hypothesis ds_digits : all_chars Char.is_digit ds = true.
Variable D : Z.

(** [(W)] after a literal takes "N minutes" to the end of the text. *)
Ltac words_to_the_end :=
  apply exec_here; unfold match_here;
  match goal with |- run _ ?r _ _ _ = _ => unfold r end;
  rewrite run_Lit_app, run_Grp; unfold Pat.words, Plus, Pat.nonspace;
  rewrite !run_Cat;
  let a := fresh "a" in let s := fresh "s" in
  let Ha := fresh "Ha" in let Hs := fresh "Hs" in
  pose proof ds_digits as Hs;
  destruct ds as [|a s]; [congruence|];
  simpl in Hs; apply andb_true_iff in Hs; destruct Hs as [Ha Hs];
  cbn [append]; rewrite run_Cls;
  rewrite (subclass_sound Char.is_digit not_space eq_refl a Ha : negb (Char.is_space a) = true);
  rewrite run_Star;
  apply star_class_greedy;
  [ exact (all_chars_subclass Char.is_digit not_space s eq_refl Hs)
  | reflexivity | apply le_n | reflexivity ].

Lemma afterX_in_after_minutes :
  exec false Pat.afterX ("after " ++ ds ++ " minutes")
  = Some [Some ("after " ++ ds ++ " minutes"); Some (ds ++ " minutes")].
Proof.
  rewrite <- (consumed_all ("after " ++ ds ++ " minutes")) at 2.
  rewrite <- (consumed_all (ds ++ " minutes")) at 3.
  words_to_the_end.
Qed.

Lemma beforeX_in_before_minutes :
  exec false Pat.beforeX ("before " ++ ds ++ " minutes")
  = Some [Some ("before " ++ ds ++ " minutes"); Some (ds ++ " minutes")].
Proof.
  rewrite <- (consumed_all ("before " ++ ds ++ " minutes")) at 2.
  rewrite <- (consumed_all (ds ++ " minutes")) at 3.
  words_to_the_end.
Qed.

Lemma parse_N_minutes : parseTimeString (ds ++ " minutes") D = parseInt ds * 60.
Proof.
  unfold parseTimeString.
  rewrite toLowerCase_app, (toLowerCase_digits ds ds_digits).
  change (toLowerCase " minutes") with " minutes".
  assert (H : exists whole,
             exec false Pat.nthMinute (ds ++ " minutes") = Some [Some whole; Some ds]).
  { eexists. apply exec_here. unfold match_here, Pat.nthMinute. rewrite run_Cat.
    apply group_plus_greedy; [assumption | assumption | reflexivity | reflexivity]. }
  destruct H as [w ->]. reflexivity.
Qed.

Lemma range_after_minutes :
  extractTimeRange ("after " ++ ds ++ " minutes") D
  = Some {| start := parseInt ds * 60; end_ := D |}.
Proof.
  unfold extractTimeRange.
  absent Pat.fromTo ltac:(lacks "o"%char). absent Pat.betweenAnd ltac:(lacks "b"%char).
  absent Pat.minutesTo ltac:(lacks "o"%char).
  absent Pat.firstN absent_literal. absent Pat.lastN ltac:(lacks "l"%char).
  rewrite afterX_in_after_minutes.
  cbn [first_match group cap nth]. now rewrite parse_N_minutes.
Qed.

Lemma range_before_minutes :
  extractTimeRange ("before " ++ ds ++ " minutes") D
  = Some {| start := 0; end_ := parseInt ds * 60 |}.
Proof.
  unfold extractTimeRange.
  absent Pat.fromTo absent_literal. absent Pat.betweenAnd ltac:(lacks "w"%char).
  absent Pat.minutesTo absent_literal.
  absent Pat.firstN absent_literal. absent Pat.lastN ltac:(lacks "l"%char).
  absent Pat.afterX ltac:(lacks "a"%char).
  rewrite beforeX_in_before_minutes.
  cbn [first_match group cap nth]. now rewrite parse_N_minutes.
Qed.

End AfterBefore.

